(** * HID request/response engine over libusb-1.0 (hid-libusb.c)

    A shallow embedding of [read_callback], [write_read], [hid_send_recv],
    [hid_init] and [hid_close].  The C globals become one [state] record that
    is passed explicitly.  libusb is the environment: every answer it gives
    (the result of a control transfer, what one [libusb_handle_events] call
    delivers and returns) is read from a script, and every libusb call the
    program makes is written to a list of [event]s. *)

From Stdlib Require Import ZArith List Bool Lia.
From Stdlib Require Import Strings.Byte.
Import ListNotations.
Open Scope Z_scope.

(** ** libusb-1.0 constants used by the source (values of libusb.h) *)

Definition LIBUSB_ERROR_IO : Z := -1.
Definition LIBUSB_ERROR_NO_DEVICE : Z := -4.
Definition LIBUSB_ERROR_BUSY : Z := -6.
Definition LIBUSB_ERROR_TIMEOUT : Z := -7.
Definition LIBUSB_ERROR_OVERFLOW : Z := -8.
Definition LIBUSB_ERROR_INTERRUPTED : Z := -10.

Definition LIBUSB_ENDPOINT_IN : Z := 128.
Definition LIBUSB_RECIPIENT_INTERFACE : Z := 1.

(** [enum libusb_transfer_status] *)
Inductive libusb_transfer_status : Type :=
| LIBUSB_TRANSFER_COMPLETED
| LIBUSB_TRANSFER_ERROR
| LIBUSB_TRANSFER_TIMED_OUT
| LIBUSB_TRANSFER_CANCELLED
| LIBUSB_TRANSFER_STALL
| LIBUSB_TRANSFER_NO_DEVICE
| LIBUSB_TRANSFER_OVERFLOW.

(** ** Program constants *)

Definition HID_INTERFACE : Z := 0.
Definition TIMEOUT_MSEC : Z := 500.
(** [sizeof receive_buf] *)
Definition RECEIVE_BUF_SIZE : Z := 42.

(** ** State

    [ctx], [dev], [transfer], [receive_buf] and [nbytes_received] are the
    file-scope variables of the source ([ctx] and [dev] only as "is not
    NULL", [transfer] as NULL or the identity of the descriptor).  The
    [t_*] fields are the contents of the descriptor [*transfer] that the
    source or libusb touch: [t_buffer] is the memory [transfer->buffer]
    points to, which is the caller's reply array, so what the transport
    stores there is what the caller finds in its array afterwards;
    [t_submitted] is libusb's own record that the descriptor is in flight
    (submitted, completion callback not yet run).  [next_transfer] numbers
    the descriptors handed out by [libusb_alloc_transfer]. *)
Record state : Type := mkState {
  ctx : bool;
  dev : bool;
  transfer : option nat;
  receive_buf : list byte;
  nbytes_received : Z;
  t_endpoint : Z;
  t_buffer : list byte;
  t_length : Z;
  t_timeout : Z;
  t_submitted : bool;
  next_transfer : nat
}.

(** Static initialisers of the source. *)
Definition initial_state : state :=
  {| ctx := false; dev := false; transfer := None;
     receive_buf := repeat x00 42; nbytes_received := 0;
     t_endpoint := 0; t_buffer := []; t_length := 0; t_timeout := 0;
     t_submitted := false; next_transfer := 0%nat |}.

Definition set_ctx (v : bool) (s : state) : state :=
  {| ctx := v; dev := dev s; transfer := transfer s;
     receive_buf := receive_buf s; nbytes_received := nbytes_received s;
     t_endpoint := t_endpoint s; t_buffer := t_buffer s;
     t_length := t_length s; t_timeout := t_timeout s;
     t_submitted := t_submitted s; next_transfer := next_transfer s |}.

Definition set_dev (v : bool) (s : state) : state :=
  {| ctx := ctx s; dev := v; transfer := transfer s;
     receive_buf := receive_buf s; nbytes_received := nbytes_received s;
     t_endpoint := t_endpoint s; t_buffer := t_buffer s;
     t_length := t_length s; t_timeout := t_timeout s;
     t_submitted := t_submitted s; next_transfer := next_transfer s |}.

Definition set_transfer (v : option nat) (s : state) : state :=
  {| ctx := ctx s; dev := dev s; transfer := v;
     receive_buf := receive_buf s; nbytes_received := nbytes_received s;
     t_endpoint := t_endpoint s; t_buffer := t_buffer s;
     t_length := t_length s; t_timeout := t_timeout s;
     t_submitted := t_submitted s; next_transfer := next_transfer s |}.

Definition set_receive_buf (v : list byte) (s : state) : state :=
  {| ctx := ctx s; dev := dev s; transfer := transfer s;
     receive_buf := v; nbytes_received := nbytes_received s;
     t_endpoint := t_endpoint s; t_buffer := t_buffer s;
     t_length := t_length s; t_timeout := t_timeout s;
     t_submitted := t_submitted s; next_transfer := next_transfer s |}.

Definition set_nbytes_received (v : Z) (s : state) : state :=
  {| ctx := ctx s; dev := dev s; transfer := transfer s;
     receive_buf := receive_buf s; nbytes_received := v;
     t_endpoint := t_endpoint s; t_buffer := t_buffer s;
     t_length := t_length s; t_timeout := t_timeout s;
     t_submitted := t_submitted s; next_transfer := next_transfer s |}.

Definition set_t_buffer (v : list byte) (s : state) : state :=
  {| ctx := ctx s; dev := dev s; transfer := transfer s;
     receive_buf := receive_buf s; nbytes_received := nbytes_received s;
     t_endpoint := t_endpoint s; t_buffer := v;
     t_length := t_length s; t_timeout := t_timeout s;
     t_submitted := t_submitted s; next_transfer := next_transfer s |}.

Definition set_t_submitted (v : bool) (s : state) : state :=
  {| ctx := ctx s; dev := dev s; transfer := transfer s;
     receive_buf := receive_buf s; nbytes_received := nbytes_received s;
     t_endpoint := t_endpoint s; t_buffer := t_buffer s;
     t_length := t_length s; t_timeout := t_timeout s;
     t_submitted := v; next_transfer := next_transfer s |}.

(** ** Events: the libusb calls the program makes, in program order

    [EvSubmit] carries what [libusb_submit_transfer] returns (the source
    ignores it): [0], [LIBUSB_ERROR_BUSY] when the descriptor is still in
    flight, or the error of a submission that libusb refuses.  [EvControl] carries the bytes sent, whether the receive was in
    flight when the send was issued, and the result of the send.
    [EvDispatch] is one call of [libusb_handle_events]: the completion it
    delivered to [read_callback] (status and the received bytes), if any,
    and the value it returned. *)
Inductive event : Type :=
| EvAlloc (id : nat)
| EvFill (id : option nat) (endpoint length timeout : Z)
| EvSubmit (id : option nat) (ret : Z)
| EvControl (data : list byte) (armed : bool) (ret : Z)
| EvCancel (id : option nat)
| EvDispatch (delivered : option (libusb_transfer_status * list byte)) (ret : Z)
| EvFree (id : nat).

(** ** The transport script *)

(** What the device answers to one submitted receive. *)
Record completion : Type := mkCompletion {
  c_status : libusb_transfer_status;
  c_data : list byte
}.

(** One call of [libusb_handle_events]: the completion that becomes ready
    during the call (if any) and the value the call returns. *)
Record dispatch : Type := mkDispatch {
  d_completion : option completion;
  d_result : Z
}.

(** ** read_callback *)

(** [memcpy(dst, src, n)] on the contents of the two arrays. *)
Definition memcpy (dst src : list byte) (n : nat) : list byte :=
  firstn n src ++ skipn n dst.

(** [actual_length] is an [int] that [memcpy] takes as a [size_t].  The
    source copies without a test of its own; a copy of more than
    [sizeof receive_buf] bytes (a length above 42, or a negative one, which
    the conversion makes huge) writes past the end of the array, which C
    leaves undefined: [None] stands for it, and the embedding says nothing
    of what the program does from there on. *)
Definition read_callback (status : libusb_transfer_status)
    (buffer : list byte) (actual_length : Z) (s : state) : option state :=
  match status with
  | LIBUSB_TRANSFER_COMPLETED =>
      if (0 <=? actual_length) && (actual_length <=? RECEIVE_BUF_SIZE) then
        Some (set_nbytes_received actual_length
               (set_receive_buf
                  (memcpy (receive_buf s) buffer (Z.to_nat actual_length)) s))
      else None
  | LIBUSB_TRANSFER_CANCELLED =>
      Some (set_nbytes_received LIBUSB_ERROR_INTERRUPTED s)
  | LIBUSB_TRANSFER_NO_DEVICE =>
      Some (set_nbytes_received LIBUSB_ERROR_NO_DEVICE s)
  | LIBUSB_TRANSFER_TIMED_OUT =>
      Some (set_nbytes_received LIBUSB_ERROR_TIMEOUT s)
  | _ =>
      Some (set_nbytes_received LIBUSB_ERROR_IO s)
  end.

(** ** The libusb calls *)

(** A fresh descriptor, not in flight. *)
Definition libusb_alloc_transfer (s : state) : nat * state :=
  (next_transfer s,
   {| ctx := ctx s; dev := dev s; transfer := transfer s;
      receive_buf := receive_buf s; nbytes_received := nbytes_received s;
      t_endpoint := 0; t_buffer := []; t_length := 0; t_timeout := 0;
      t_submitted := false; next_transfer := S (next_transfer s) |}).

Definition libusb_fill_interrupt_transfer (endpoint : Z) (buffer : list byte)
    (length timeout : Z) (s : state) : state :=
  {| ctx := ctx s; dev := dev s; transfer := transfer s;
     receive_buf := receive_buf s; nbytes_received := nbytes_received s;
     t_endpoint := endpoint; t_buffer := buffer;
     t_length := length; t_timeout := timeout;
     t_submitted := t_submitted s; next_transfer := next_transfer s |}.

(** Submitting a descriptor that is in flight is refused with
    [LIBUSB_ERROR_BUSY]; otherwise the descriptor is now in flight.  This
    is libusb while it accepts every other submission; a submission refused
    for another reason is [libusb_submit_transfer_answer] below. *)
Definition libusb_submit_transfer (s : state) : Z * state :=
  if t_submitted s then (LIBUSB_ERROR_BUSY, s)
  else (0, set_t_submitted true s).

(** Cancellation is asynchronous: the call only asks for it, and the
    descriptor stays in flight until a later [libusb_handle_events] runs the
    callback. *)
Definition libusb_cancel_transfer (s : state) : state := s.

(** The bytes of a completion that fit the length the descriptor was filled
    with (libusb never reports more than [transfer->length] bytes). *)
Definition received (c : completion) (s : state) : list byte :=
  firstn (Z.to_nat (t_length s)) (c_data c).

(** What one [libusb_handle_events] call delivers to the callback: the
    scripted completion, provided a receive is in flight. *)
Definition delivered (d : dispatch) (s : state)
    : option (libusb_transfer_status * list byte) :=
  match d_completion d with
  | Some c => if t_submitted s then Some (c_status c, received c s) else None
  | None => None
  end.

(** [libusb_handle_events]: when a completion is delivered, the transport
    stores the received bytes at [transfer->buffer], takes the descriptor
    out of flight and runs [read_callback] with [actual_length] the number
    of bytes stored.  The value the call returns is [d_result d]. *)
Definition libusb_handle_events (d : dispatch) (s : state) : option state :=
  match delivered d s with
  | Some (status, bytes) =>
      let s1 := set_t_submitted false
                  (set_t_buffer (memcpy (t_buffer s) bytes (length bytes)) s) in
      read_callback status (t_buffer s1) (Z.of_nat (length bytes)) s1
  | None => Some s
  end.

(** ** write_read *)

(** The test of lines 112-117: a negative result other than the four
    transient codes. *)
Definition fatal_dispatch (result : Z) : bool :=
  if result <? 0 then
    negb (result =? LIBUSB_ERROR_BUSY) &&
    negb (result =? LIBUSB_ERROR_TIMEOUT) &&
    negb (result =? LIBUSB_ERROR_OVERFLOW) &&
    negb (result =? LIBUSB_ERROR_INTERRUPTED)
  else false.

(** Outcome of the loop [while (nbytes_received == 0)]:
    left with a non-zero [nbytes_received]; left by [return result];
    still looping when the script ends; undefined behaviour. *)
Inductive wait_result : Type :=
| WaitDone (s : state) (ds : list dispatch)
| WaitFatal (result : Z) (s : state) (ds : list dispatch)
| WaitPending (s : state)
| WaitUndefined.

Fixpoint wait_loop (ds : list dispatch) (s : state)
    : list event * wait_result :=
  if nbytes_received s =? 0 then
    match ds with
    | [] => ([], WaitPending s)
    | d :: ds' =>
        let ev := EvDispatch (delivered d s) (d_result d) in
        match libusb_handle_events d s with
        | None => ([ev], WaitUndefined)
        | Some s1 =>
            if fatal_dispatch (d_result d)
            then ([ev], WaitFatal (d_result d) s1 ds')
            else let (evs, r) := wait_loop ds' s1 in (ev :: evs, r)
        end
    end
  else ([], WaitDone s ds).

(** Outcome of [write_read]: the value returned, with the state and the
    unread part of the script; still running when the script ends;
    undefined behaviour. *)
Inductive wr_result : Type :=
| WrReturn (ret : Z) (s : state) (ss : list Z) (ds : list dispatch)
| WrPending (s : state)
| WrUndefined.

(** The code from the label [again] on.  [ss] scripts the results of the
    control transfers, [ds] the calls of [libusb_handle_events]. *)
Fixpoint again (ss : list Z) (ds : list dispatch) (data : list byte)
    (s : state) : list event * wr_result :=
  let s1 := set_nbytes_received 0 s in
  let (sub, s2) := libusb_submit_transfer s1 in
  let ev_sub := EvSubmit (transfer s2) sub in
  match ss with
  | [] => ([ev_sub], WrPending s2)
  | result :: ss' =>
      let ev_ctl := EvControl data (t_submitted s2) result in
      if result <? 0 then
        ([ev_sub; ev_ctl; EvCancel (transfer s2)],
         WrReturn (-1) (libusb_cancel_transfer s2) ss' ds)
      else
        let (evs, w) := wait_loop ds s2 in
        match w with
        | WaitFatal r s3 ds' =>
            (ev_sub :: ev_ctl :: evs, WrReturn r s3 ss' ds')
        | WaitDone s3 ds' =>
            if nbytes_received s3 =? LIBUSB_ERROR_TIMEOUT then
              let (evs', r) := again ss' ds' data s3 in
              (ev_sub :: ev_ctl :: evs ++ evs', r)
            else
              (ev_sub :: ev_ctl :: evs,
               WrReturn (nbytes_received s3) s3 ss' ds')
        | WaitPending s3 => (ev_sub :: ev_ctl :: evs, WrPending s3)
        | WaitUndefined => (ev_sub :: ev_ctl :: evs, WrUndefined)
        end
  end.

(** Conversions between [unsigned] and [int] (32 bits, two's complement). *)
Definition to_unsigned (x : Z) : Z := x mod 2 ^ 32.
Definition to_int (x : Z) : Z := (x + 2 ^ 31) mod 2 ^ 32 - 2 ^ 31.

(** The bytes handed to [libusb_control_transfer]: its [wLength] parameter
    is a [uint16_t], [length] is [unsigned]. *)
Definition sent_bytes (data : list byte) (length : Z) : list byte :=
  firstn (Z.to_nat (length mod 2 ^ 16)) data.

(** [data] is the caller's request array; [reply] is the contents of the
    caller's reply array on entry.  [rlength] is [unsigned] and is passed
    for the [int length] of the descriptor. *)
Definition write_read (ss : list Z) (ds : list dispatch)
    (data : list byte) (length : Z) (reply : list byte) (rlength : Z)
    (s : state) : list event * wr_result :=
  let (evs0, s1) :=
    match transfer s with
    | None =>
        let (id, s') := libusb_alloc_transfer s in
        ([EvAlloc id], set_transfer (Some id) s')
    | Some _ => ([], s)
    end in
  let endpoint := Z.lor LIBUSB_RECIPIENT_INTERFACE LIBUSB_ENDPOINT_IN in
  let s2 := libusb_fill_interrupt_transfer endpoint reply (to_int rlength)
              TIMEOUT_MSEC s1 in
  let ev_fill := EvFill (transfer s2) endpoint (to_int rlength) TIMEOUT_MSEC in
  let (evs, r) := again ss ds (sent_bytes data length) s2 in
  (evs0 ++ ev_fill :: evs, r).

(** *** Submissions that libusb refuses

    [libusb_submit_transfer] above is libusb while it accepts every
    submission of a descriptor that is not in flight.  The call can also
    fail for reasons of its own ([LIBUSB_ERROR_NO_DEVICE] when the device
    has been unplugged, [LIBUSB_ERROR_IO], ...), and the descriptor is then
    not in flight.  [libusb_submit_transfer_answer] takes what libusb
    answers to the submission of a free descriptor, and [again_answers] and
    [write_read_answers] are the code of [again] and [write_read] line for
    line with these answers scripted too: [subs] holds one answer for each
    submission in turn, and every submission after the script's end is
    accepted.  The source drops the value the call returns (line 96), so the
    answer changes nothing in what the code does next. *)
Definition libusb_submit_transfer_answer (answer : Z) (s : state) : Z * state :=
  if t_submitted s then (LIBUSB_ERROR_BUSY, s)
  else if answer <? 0 then (answer, s)
  else (0, set_t_submitted true s).

Fixpoint again_answers (subs ss : list Z) (ds : list dispatch)
    (data : list byte) (s : state) : list event * wr_result :=
  let s1 := set_nbytes_received 0 s in
  let (sub, s2) := libusb_submit_transfer_answer (hd 0 subs) s1 in
  let ev_sub := EvSubmit (transfer s2) sub in
  match ss with
  | [] => ([ev_sub], WrPending s2)
  | result :: ss' =>
      let ev_ctl := EvControl data (t_submitted s2) result in
      if result <? 0 then
        ([ev_sub; ev_ctl; EvCancel (transfer s2)],
         WrReturn (-1) (libusb_cancel_transfer s2) ss' ds)
      else
        let (evs, w) := wait_loop ds s2 in
        match w with
        | WaitFatal r s3 ds' =>
            (ev_sub :: ev_ctl :: evs, WrReturn r s3 ss' ds')
        | WaitDone s3 ds' =>
            if nbytes_received s3 =? LIBUSB_ERROR_TIMEOUT then
              let (evs', r) := again_answers (tl subs) ss' ds' data s3 in
              (ev_sub :: ev_ctl :: evs ++ evs', r)
            else
              (ev_sub :: ev_ctl :: evs,
               WrReturn (nbytes_received s3) s3 ss' ds')
        | WaitPending s3 => (ev_sub :: ev_ctl :: evs, WrPending s3)
        | WaitUndefined => (ev_sub :: ev_ctl :: evs, WrUndefined)
        end
  end.

Definition write_read_answers (subs ss : list Z) (ds : list dispatch)
    (data : list byte) (length : Z) (reply : list byte) (rlength : Z)
    (s : state) : list event * wr_result :=
  let (evs0, s1) :=
    match transfer s with
    | None =>
        let (id, s') := libusb_alloc_transfer s in
        ([EvAlloc id], set_transfer (Some id) s')
    | Some _ => ([], s)
    end in
  let endpoint := Z.lor LIBUSB_RECIPIENT_INTERFACE LIBUSB_ENDPOINT_IN in
  let s2 := libusb_fill_interrupt_transfer endpoint reply (to_int rlength)
              TIMEOUT_MSEC s1 in
  let ev_fill := EvFill (transfer s2) endpoint (to_int rlength) TIMEOUT_MSEC in
  let (evs, r) := again_answers subs ss ds (sent_bytes data length) s2 in
  (evs0 ++ ev_fill :: evs, r).

(** ** hid_send_recv *)

(** The calls of [exit(-1)] in the source. *)
Inductive exit_site : Type :=
| ExitWriteRead (reply_len : Z)
| ExitShortRead (reply_len rlength : Z)
| ExitInit (error : Z)
| ExitClaim (error : Z).

(** Outcome of [hid_send_recv]: it returns (the reply is in the caller's
    array, [t_buffer] of the state); the process exits; still running when
    the script ends; undefined behaviour. *)
Inductive hid_result : Type :=
| HidReturn (s : state) (ss : list Z) (ds : list dispatch)
| HidExit (site : exit_site) (s : state)
| HidPending (s : state)
| HidUndefined.

(** The hex dumps under [debug_level > 1] only print and are left out.
    [reply_len != rlength] compares an [int] with an [unsigned], so
    [reply_len] is converted to [unsigned]. *)
Definition hid_send_recv (ss : list Z) (ds : list dispatch)
    (data : list byte) (nbytes : Z) (rdata : list byte) (rlength : Z)
    (s : state) : list event * hid_result :=
  let (evs, r) := write_read ss ds data nbytes rdata rlength s in
  match r with
  | WrReturn reply_len s' ss' ds' =>
      if reply_len <? 0 then (evs, HidExit (ExitWriteRead reply_len) s')
      else if negb (to_unsigned reply_len =? rlength)
      then (evs, HidExit (ExitShortRead reply_len rlength) s')
      else (evs, HidReturn s' ss' ds')
  | WrPending s' => (evs, HidPending s')
  | WrUndefined => (evs, HidUndefined)
  end.

(** ** hid_init and hid_close *)

(** What libusb answers during [hid_init]. *)
Record init_answers : Type := mkInitAnswers {
  init_error : Z;
  device_found : bool;
  kernel_driver_active : bool;
  claim_error : Z
}.

Inductive init_result : Type :=
| InitReturn (ret : Z) (s : state)
| InitExit (site : exit_site) (s : state).

Definition hid_init (vid pid : Z) (a : init_answers) (s : state)
    : init_result :=
  if init_error a <? 0 then InitExit (ExitInit (init_error a)) s
  else
    let s1 := set_ctx true s in
    if negb (device_found a) then
      InitReturn (-1) (set_ctx false (set_dev false s1))
    else
      let s2 := set_dev true s1 in
      if claim_error a <? 0
      then InitExit (ExitClaim (claim_error a)) (set_ctx false s2)
      else InitReturn 0 s2.

Definition hid_close (s : state) : list event * state :=
  if negb (ctx s) then ([], s)
  else
    let (evs, s1) :=
      match transfer s with
      | Some id => ([EvFree id], set_transfer None s)
      | None => ([], s)
      end in
    (evs, set_ctx false s1).

(** ** The process: a sequence of calls of the three entry points

    [write_read] is [static]; a client reaches it only through
    [hid_send_recv].  Each call carries the answers of the transport during
    that call. *)
Inductive call : Type :=
| Call_hid_init (vid pid : Z) (a : init_answers)
| Call_hid_send_recv (ss : list Z) (ds : list dispatch)
    (data : list byte) (nbytes : Z) (rdata : list byte) (rlength : Z)
| Call_hid_close.

Inductive process : Type :=
| Running (s : state)
| Exited (site : exit_site) (s : state)
| Blocked (s : state)
| Undefined.

Fixpoint run (calls : list call) (s : state) : list event * process :=
  match calls with
  | [] => ([], Running s)
  | Call_hid_init vid pid a :: calls' =>
      match hid_init vid pid a s with
      | InitReturn _ s' => run calls' s'
      | InitExit site s' => ([], Exited site s')
      end
  | Call_hid_send_recv ss ds data nbytes rdata rlength :: calls' =>
      let (evs, r) := hid_send_recv ss ds data nbytes rdata rlength s in
      match r with
      | HidReturn s' _ _ =>
          let (evs', p) := run calls' s' in (evs ++ evs', p)
      | HidExit site s' => (evs, Exited site s')
      | HidPending s' => (evs, Blocked s')
      | HidUndefined => (evs, Undefined)
      end
  | Call_hid_close :: calls' =>
      let (evs, s') := hid_close s in
      let (evs', p) := run calls' s' in (evs ++ evs', p)
  end.

(** ** Reading traces *)

Definition is_alloc (e : event) : bool :=
  match e with EvAlloc _ => true | _ => false end.
Definition is_free (e : event) : bool :=
  match e with EvFree _ => true | _ => false end.
Definition is_submit (e : event) : bool :=
  match e with EvSubmit _ _ => true | _ => false end.
Definition is_control (e : event) : bool :=
  match e with EvControl _ _ _ => true | _ => false end.
Definition is_cancel (e : event) : bool :=
  match e with EvCancel _ => true | _ => false end.
Definition is_dispatch (e : event) : bool :=
  match e with EvDispatch _ _ => true | _ => false end.
(** A control transfer that reported an error. *)
Definition is_failed_send (e : event) : bool :=
  match e with EvControl _ _ ret => ret <? 0 | _ => false end.

Definition count (p : event -> bool) (evs : list event) : nat :=
  length (filter p evs).

(** The value [read_callback] stores in [nbytes_received] for a delivery
    ([0] stands for "nothing delivered": the slot keeps the [0] it was
    reset to). *)
Definition outcome_of (dl : option (libusb_transfer_status * list byte)) : Z :=
  match dl with
  | None => 0
  | Some (LIBUSB_TRANSFER_COMPLETED, bytes) => Z.of_nat (length bytes)
  | Some (LIBUSB_TRANSFER_CANCELLED, _) => LIBUSB_ERROR_INTERRUPTED
  | Some (LIBUSB_TRANSFER_NO_DEVICE, _) => LIBUSB_ERROR_NO_DEVICE
  | Some (LIBUSB_TRANSFER_TIMED_OUT, _) => LIBUSB_ERROR_TIMEOUT
  | Some (_, _) => LIBUSB_ERROR_IO
  end.

(** A dispatch after which [write_read] jumps back to [again]: the callback
    stored [LIBUSB_ERROR_TIMEOUT] and the call itself did not fail. *)
Definition is_retry (e : event) : bool :=
  match e with
  | EvDispatch dl r =>
      negb (fatal_dispatch r) && (outcome_of dl =? LIBUSB_ERROR_TIMEOUT)
  | _ => false
  end.

(** The value [write_read] returns when [e] is its last libusb call. *)
Definition verdict (e : event) : option Z :=
  match e with
  | EvCancel _ => Some (-1)
  | EvDispatch dl r => Some (if fatal_dispatch r then r else outcome_of dl)
  | _ => None
  end.

(** *** The attempt state machine

    [Entry] and [Allocated] are the first lines of [write_read]; [Idle] is
    the label [again]; [Armed] is after the submission; [Failed] after a
    failed send; [Waiting] is the dispatch loop; [Closed] is after the last
    libusb call of a call that returns. *)
Inductive phase : Type :=
| Entry | Allocated | Idle | Armed | Failed | Waiting | Closed.

Definition step (p : phase) (e : event) : option phase :=
  match p, e with
  | Entry, EvAlloc _ => Some Allocated
  | Entry, EvFill _ _ _ _ => Some Idle
  | Allocated, EvFill _ _ _ _ => Some Idle
  | Idle, EvSubmit _ _ => Some Armed
  | Armed, EvControl _ armed ret =>
      if armed then Some (if ret <? 0 then Failed else Waiting) else None
  | Failed, EvCancel _ => Some Closed
  | Waiting, EvDispatch dl r =>
      Some (if fatal_dispatch r then Closed
            else if outcome_of dl =? 0 then Waiting
            else if outcome_of dl =? LIBUSB_ERROR_TIMEOUT then Idle
            else Closed)
  | _, _ => None
  end.

Fixpoint phases (p : phase) (evs : list event) : option phase :=
  match evs with
  | [] => Some p
  | e :: evs' =>
      match step p e with
      | Some q => phases q evs'
      | None => None
      end
  end.

Definition wait_phase (w : wait_result) : phase :=
  match w with
  | WaitDone s _ =>
      if nbytes_received s =? LIBUSB_ERROR_TIMEOUT then Idle else Closed
  | WaitFatal _ _ _ => Closed
  | WaitPending _ => Waiting
  | WaitUndefined => Closed
  end.

(** What [libusb_handle_events] and [read_callback] leave alone. *)
Definition frame (s s' : state) : Prop :=
  transfer s' = transfer s /\ next_transfer s' = next_transfer s /\
  ctx s' = ctx s /\ dev s' = dev s /\ t_length s' = t_length s.

(** After a completed delivery the bytes are in the caller's array and in
    [receive_buf]. *)
Definition completed_data (dl : option (libusb_transfer_status * list byte))
    (s' : state) : Prop :=
  match dl with
  | Some (LIBUSB_TRANSFER_COMPLETED, bytes) =>
      firstn (length bytes) (t_buffer s') = bytes /\
      firstn (length bytes) (receive_buf s') = bytes /\
      Z.of_nat (length bytes) <= RECEIVE_BUF_SIZE
  | _ => True
  end.

(** ** Vocabulary of the statements and proofs *)

(** What a run of the dispatch loop looks like, by its outcome. *)
Definition wait_post (s : state) (evs : list event) (w : wait_result) : Prop :=
  match w with
  | WaitDone s' _ =>
      nbytes_received s' <> 0 /\ t_submitted s' = false /\ frame s s' /\
      exists pre dl r,
        evs = pre ++ [EvDispatch dl r] /\ fatal_dispatch r = false /\
        outcome_of dl = nbytes_received s' /\ completed_data dl s'
  | WaitFatal r s' _ =>
      fatal_dispatch r = true /\ frame s s' /\
      (t_submitted s = false -> t_submitted s' = false) /\
      exists pre dl, evs = pre ++ [EvDispatch dl r]
  | WaitPending s' =>
      nbytes_received s' = 0 /\ frame s s' /\
      (t_submitted s = false -> t_submitted s' = false)
  | WaitUndefined =>
      exists pre bytes r,
        evs = pre ++ [EvDispatch (Some (LIBUSB_TRANSFER_COMPLETED, bytes)) r] /\
        RECEIVE_BUF_SIZE < Z.of_nat (length bytes)
  end.

(** The state in which the send is issued: slot reset, receive submitted. *)
Definition armed (s : state) : state :=
  snd (libusb_submit_transfer (set_nbytes_received 0 s)).

Definition submit_event (s : state) : event :=
  EvSubmit (transfer s) (if t_submitted s then LIBUSB_ERROR_BUSY else 0).

(** What a run looks like, by its outcome; [p0] is the phase it starts in
    ([Idle] for the code from [again] on, [Entry] for [write_read]). *)
Definition run_post (p0 : phase) (s : state) (evs : list event)
    (r : wr_result) : Prop :=
  match r with
  | WrReturn ret s' _ _ =>
      phases p0 evs = Some Closed /\ frame s s' /\ ret <> 0 /\
      (exists pre e, evs = pre ++ [e] /\ verdict e = Some ret) /\
      (0 <= ret ->
       t_submitted s' = false /\
       exists pre bytes r,
         evs = pre ++ [EvDispatch (Some (LIBUSB_TRANSFER_COMPLETED, bytes)) r] /\
         fatal_dispatch r = false /\ ret = Z.of_nat (length bytes) /\
         completed_data (Some (LIBUSB_TRANSFER_COMPLETED, bytes)) s')
  | WrPending s' =>
      (phases p0 evs = Some Armed \/ phases p0 evs = Some Waiting) /\
      frame s s'
  | WrUndefined =>
      phases p0 evs = Some Closed /\
      exists pre bytes r,
        evs = pre ++ [EvDispatch (Some (LIBUSB_TRANSFER_COMPLETED, bytes)) r] /\
        RECEIVE_BUF_SIZE < Z.of_nat (length bytes)
  end.

(** The first lines of [write_read]: the state at the label [again] and
    the events up to it. *)
Definition entered (reply : list byte) (rlength : Z) (s : state) : state :=
  libusb_fill_interrupt_transfer
    (Z.lor LIBUSB_RECIPIENT_INTERFACE LIBUSB_ENDPOINT_IN) reply
    (to_int rlength) TIMEOUT_MSEC
    match transfer s with
    | None => set_transfer (Some (next_transfer s)) (snd (libusb_alloc_transfer s))
    | Some _ => s
    end.

Definition entry_events (rlength : Z) (s : state) : list event :=
  match transfer s with
  | None => [EvAlloc (next_transfer s)]
  | Some _ => []
  end ++
  [EvFill (match transfer s with None => Some (next_transfer s) | t => t end)
     (Z.lor LIBUSB_RECIPIENT_INTERFACE LIBUSB_ENDPOINT_IN)
     (to_int rlength) TIMEOUT_MSEC].

(** Submissions and sends still due before a run that starts in [p] can
    reach [Closed] without a retry. *)
Definition due_submit (p : phase) : nat :=
  match p with Entry | Allocated | Idle => 1 | _ => 0 end.
Definition due_control (p : phase) : nat :=
  match p with Entry | Allocated | Idle | Armed => 1 | _ => 0 end.

(** [names t e]: if [e] is a libusb call on a transfer descriptor, the
    descriptor is [t]. *)
Definition names (t : option nat) (e : event) : Prop :=
  match e with
  | EvAlloc n => t = Some n
  | EvFill id _ _ _ | EvSubmit id _ | EvCancel id => id = t
  | EvFree n => t = Some n
  | _ => True
  end.

(** A submission that libusb accepted: the descriptor was not in flight. *)
Definition submit_free (e : event) : bool :=
  match e with
  | EvSubmit _ ret => ret =? 0
  | _ => true
  end.

Definition is_close (c : call) : bool :=
  match c with Call_hid_close => true | _ => false end.

(** The descriptor a call of [write_read] works on: the one [transfer]
    points to, or the one allocated now. *)
Definition descriptor (s : state) : option nat :=
  match transfer s with
  | None => Some (next_transfer s)
  | t => t
  end.

(** ** Scripts used in the examples *)

Definition request12 : list byte := [x01; x02].
Definition reply8 : list byte := [x10; x11; x12; x13; x14; x15; x16; x17].
Definition empty8 : list byte := repeat x00 8.

(** A call of [libusb_handle_events] that completes the receive with
    [bytes] and returns [0]. *)
Definition completes (bytes : list byte) : dispatch :=
  mkDispatch (Some (mkCompletion LIBUSB_TRANSFER_COMPLETED bytes)) 0.
(** One that ends the receive with another status and returns [0]. *)
Definition ends_with (st : libusb_transfer_status) : dispatch :=
  mkDispatch (Some (mkCompletion st [])) 0.
(** One that delivers nothing and returns [r]. *)
Definition returns (r : Z) : dispatch := mkDispatch None r.

(** [k] timeouts, then the eight bytes. *)
Definition timeouts_then_reply (k : nat) : list dispatch :=
  repeat (ends_with LIBUSB_TRANSFER_TIMED_OUT) k ++ [completes reply8].

(** ** The hex dumps of hid_send_recv

    The two loops of [hid_send_recv] under [debug_level > 1] print a tag,
    then each byte as [" %02x"], starting a new line (a line feed and seven
    blanks) before every byte whose index is a non-zero multiple of 16, and
    a final line feed.  The output is kept as the list of the pieces
    printed. *)
Inductive piece : Type :=
| PTag (send : bool)
| PBreak
| PHex (b : byte)
| PNewline.

(** One round of the loop: [k] is the index. *)
Definition dump_round (data : list byte) (k : nat) : list piece :=
  (if negb (Z.of_nat k =? 0) && (Z.land (Z.of_nat k) 15 =? 0)
   then [PBreak] else []) ++
  [PHex (nth k data x00)].

Definition hid_dump (send : bool) (data : list byte) (nbytes : Z)
    : list piece :=
  PTag send :: flat_map (dump_round data) (seq 0 (Z.to_nat nbytes)) ++
  [PNewline].

Definition is_break (p : piece) : bool :=
  match p with PBreak => true | _ => false end.

(** The bytes printed, in the order printed. *)
Fixpoint printed (ps : list piece) : list byte :=
  match ps with
  | [] => []
  | PHex b :: ps' => b :: printed ps'
  | _ :: ps' => printed ps'
  end.

(** What the two dumps of one call of [hid_send_recv] print, for a value
    of the global [debug_level] and a non-NULL [rdata]: the request before
    [write_read], the reply array after it when the call gets that far.
    (The error messages of the call are not part of it.) *)
Definition hid_send_recv_dumps (debug_level : Z) (ss : list Z)
    (ds : list dispatch) (data : list byte) (nbytes : Z) (rdata : list byte)
    (rlength : Z) (s : state) : list piece :=
  (if debug_level >? 1 then hid_dump true data nbytes else []) ++
  match snd (hid_send_recv ss ds data nbytes rdata rlength s) with
  | HidReturn s' _ _ =>
      if debug_level >? 1 then hid_dump false (t_buffer s') rlength else []
  | _ => []
  end.

(** ** More vocabulary *)

(** A send of the bytes [d]. *)
Definition sends_only (d : list byte) (e : event) : Prop :=
  match e with
  | EvControl sent _ _ => sent = d
  | _ => True
  end.

(** A call of [libusb_handle_events] during which nothing completes and
    whose result lets the loop go on. *)
Definition quiet (d : dispatch) : Prop :=
  d_completion d = None /\ fatal_dispatch (d_result d) = false.

(** The caller's array keeps its size and its bytes from index
    [transfer->length] on. *)
Definition tail_kept (s s' : state) : Prop :=
  t_length s' = t_length s /\
  length (t_buffer s') = length (t_buffer s) /\
  skipn (Z.to_nat (t_length s)) (t_buffer s') =
  skipn (Z.to_nat (t_length s)) (t_buffer s).

(** The same for an array of any size: what lies at [transfer->buffer] from
    index [transfer->length] on is what was there in [s]. *)
Definition rest_kept (s s' : state) : Prop :=
  t_length s' = t_length s /\
  skipn (Z.to_nat (t_length s)) (t_buffer s') =
  skipn (Z.to_nat (t_length s)) (t_buffer s).

(** The state in which a call of [hid_send_recv] leaves the program. *)
Definition hid_final (r : hid_result) : option state :=
  match r with
  | HidReturn s _ _ | HidExit _ s | HidPending s => Some s
  | HidUndefined => None
  end.

(** Checking a trace against the life of the descriptor: [live] is the
    descriptor allocated and not yet freed.  An allocation needs none to be
    live, a free needs its descriptor to be the live one, and a fill, a
    submission or a cancellation needs to be on the live one.  The result
    is the descriptor live at the end, or [None] when the trace breaks one
    of these rules. *)
Fixpoint lifecycle (live : option nat) (evs : list event)
    : option (option nat) :=
  match evs with
  | [] => Some live
  | EvAlloc n :: evs' =>
      match live with
      | None => lifecycle (Some n) evs'
      | Some _ => None
      end
  | EvFree n :: evs' =>
      match live with
      | Some m => if Nat.eqb m n then lifecycle None evs' else None
      | None => None
      end
  | EvFill id _ _ _ :: evs' | EvSubmit id _ :: evs' | EvCancel id :: evs' =>
      match live, id with
      | Some m, Some n => if Nat.eqb m n then lifecycle live evs' else None
      | _, _ => None
      end
  | _ :: evs' => lifecycle live evs'
  end.

(** * Lemmas *)

(** Case analysis on an event, with the names the proofs use. *)
Ltac destruct_event e :=
  destruct e as [id|id ep len tmo|id sub|data arm ret|id|dl ret|id].

Lemma frame_refl (s : state) : frame s s.
Proof. repeat split. Qed.

Lemma frame_trans (s1 s2 s3 : state) :
  frame s1 s2 -> frame s2 s3 -> frame s1 s3.
Proof.
  unfold frame. intros (a & b & c & d & e) (a' & b' & c' & d' & e').
  repeat split; congruence.
Qed.

Lemma firstn_memcpy (dst bytes : list byte) :
  firstn (length bytes) (memcpy dst bytes (length bytes)) = bytes.
Proof.
  unfold memcpy. rewrite firstn_all.
  rewrite firstn_app, firstn_all, Nat.sub_diag. simpl.
  apply app_nil_r.
Qed.

Lemma memcpy_firstn (dst src : list byte) (n : nat) :
  (n <= length src)%nat -> firstn n (memcpy dst src n) = firstn n src.
Proof.
  intros H. unfold memcpy.
  rewrite firstn_app, firstn_firstn, Nat.min_id.
  rewrite length_firstn, Nat.min_l by exact H.
  rewrite Nat.sub_diag. simpl. apply app_nil_r.
Qed.

(** [libusb_handle_events] when nothing is delivered. *)
Lemma handle_events_idle (d : dispatch) (s : state) :
  delivered d s = None -> libusb_handle_events d s = Some s.
Proof. unfold libusb_handle_events. intros ->. reflexivity. Qed.

(** [libusb_handle_events] when the callback runs. *)
Lemma handle_events_delivered (d : dispatch) (s s1 : state) st bytes :
  delivered d s = Some (st, bytes) ->
  libusb_handle_events d s = Some s1 ->
  nbytes_received s1 = outcome_of (Some (st, bytes)) /\
  t_submitted s1 = false /\ frame s s1 /\
  completed_data (Some (st, bytes)) s1.
Proof.
  unfold libusb_handle_events. intros ->.
  destruct st; simpl; try (intros [= <-]; repeat split; reflexivity).
  destruct ((0 <=? Z.of_nat (length bytes)) &&
            (Z.of_nat (length bytes) <=? RECEIVE_BUF_SIZE)) eqn:E;
    [|discriminate].
  apply andb_true_iff in E. destruct E as [_ E].
  intros [= <-]. simpl. repeat split.
  - apply firstn_memcpy.
  - rewrite Nat2Z.id. rewrite memcpy_firstn.
    + apply firstn_memcpy.
    + unfold memcpy. rewrite length_app, firstn_all. lia.
  - apply Z.leb_le. exact E.
Qed.

(** The only undefined behaviour: a completed transfer longer than
    [receive_buf]. *)
Lemma handle_events_undefined (d : dispatch) (s : state) :
  libusb_handle_events d s = None ->
  exists bytes, delivered d s = Some (LIBUSB_TRANSFER_COMPLETED, bytes) /\
                RECEIVE_BUF_SIZE < Z.of_nat (length bytes).
Proof.
  unfold libusb_handle_events.
  destruct (delivered d s) as [[st bytes]|]; [|discriminate].
  destruct st; simpl; try discriminate.
  destruct ((0 <=? Z.of_nat (length bytes)) &&
            (Z.of_nat (length bytes) <=? RECEIVE_BUF_SIZE)) eqn:E;
    [discriminate|].
  intros _. exists bytes. split; [reflexivity|].
  apply andb_false_iff in E. destruct E as [E|E]; apply Z.leb_gt in E; lia.
Qed.

Lemma wait_loop_nonzero (ds : list dispatch) (s : state) :
  nbytes_received s <> 0 -> wait_loop ds s = ([], WaitDone s ds).
Proof.
  intros H. apply Z.eqb_neq in H. destruct ds; simpl; rewrite H; reflexivity.
Qed.

Lemma wait_loop_cons (d : dispatch) (ds : list dispatch) (s : state) :
  nbytes_received s = 0 ->
  wait_loop (d :: ds) s =
  let ev := EvDispatch (delivered d s) (d_result d) in
  match libusb_handle_events d s with
  | None => ([ev], WaitUndefined)
  | Some s1 =>
      if fatal_dispatch (d_result d)
      then ([ev], WaitFatal (d_result d) s1 ds)
      else (ev :: fst (wait_loop ds s1), snd (wait_loop ds s1))
  end.
Proof.
  intros H. simpl. rewrite H. simpl.
  destruct (libusb_handle_events d s); [|reflexivity].
  destruct (fatal_dispatch (d_result d)); [reflexivity|].
  destruct (wait_loop ds s0); reflexivity.
Qed.

(** One call of [libusb_handle_events] made while the slot is empty. *)
Lemma handle_events_step (d : dispatch) (s s1 : state) :
  nbytes_received s = 0 ->
  libusb_handle_events d s = Some s1 ->
  nbytes_received s1 = outcome_of (delivered d s) /\
  frame s s1 /\
  (nbytes_received s1 <> 0 -> t_submitted s1 = false) /\
  completed_data (delivered d s) s1.
Proof.
  intros H0 H.
  destruct (delivered d s) as [[st bytes]|] eqn:E.
  - destruct (handle_events_delivered _ _ _ _ _ E H) as (a & b & c & e).
    repeat split; auto; apply c.
  - rewrite (handle_events_idle _ _ E) in H. injection H as <-.
    simpl. repeat split; auto. congruence.
Qed.

Lemma handle_events_submitted (d : dispatch) (s s1 : state) :
  libusb_handle_events d s = Some s1 ->
  t_submitted s = false -> t_submitted s1 = false.
Proof.
  unfold libusb_handle_events, delivered. intros H Hs. rewrite Hs in H.
  destruct (d_completion d); injection H as <-; exact Hs.
Qed.

Lemma wait_loop_spec (ds : list dispatch) :
  forall s, nbytes_received s = 0 ->
  phases Waiting (fst (wait_loop ds s)) = Some (wait_phase (snd (wait_loop ds s))) /\
  forallb is_dispatch (fst (wait_loop ds s)) = true /\
  wait_post s (fst (wait_loop ds s)) (snd (wait_loop ds s)).
Proof.
  induction ds as [|d ds IH]; intros s H0.
  - simpl. rewrite H0. simpl. repeat split; auto.
  - rewrite (wait_loop_cons _ _ _ H0). cbv zeta.
    destruct (libusb_handle_events d s) as [s1|] eqn:Eh.
    + destruct (handle_events_step _ _ _ H0 Eh) as (Hn & Hf & Hsub & Hc).
      destruct (fatal_dispatch (d_result d)) eqn:Ef.
      * simpl. rewrite Ef. repeat split; auto; try apply Hf.
        -- intros Hs. eapply handle_events_submitted; eauto.
        -- exists [], (delivered d s). reflexivity.
      * destruct (Z.eq_dec (nbytes_received s1) 0) as [Hz|Hnz].
        -- destruct (IH s1 Hz) as (IH1 & IH2 & IH3).
           cbn [fst snd]. split; [|split].
           ++ cbn [phases step]. rewrite Ef, <- Hn, Hz. simpl. exact IH1.
           ++ simpl. exact IH2.
           ++ destruct (snd (wait_loop ds s1)) as [s' ds'|r s' ds'|s'|]; simpl in *.
              ** destruct IH3 as (a & b & c & pre & dl & r & e1 & e2 & e3 & e4).
                 split; [exact a|]. split; [exact b|].
                 split; [eapply frame_trans; eauto|].
                 exists (EvDispatch (delivered d s) (d_result d) :: pre), dl, r.
                 rewrite e1. auto.
              ** destruct IH3 as (a & b & c & pre & dl & e1).
                 split; [exact a|]. split; [eapply frame_trans; eauto|].
                 split.
                 --- intros Hs. apply c. eapply handle_events_submitted; eauto.
                 --- exists (EvDispatch (delivered d s) (d_result d) :: pre), dl.
                     rewrite e1. auto.
              ** destruct IH3 as (a & b & c).
                 split; [exact a|]. split; [eapply frame_trans; eauto|].
                 intros Hs. apply c. eapply handle_events_submitted; eauto.
              ** destruct IH3 as (pre & bytes & r & e1 & e2).
                 exists (EvDispatch (delivered d s) (d_result d) :: pre), bytes, r.
                 rewrite e1. auto.
        -- rewrite (wait_loop_nonzero ds s1 Hnz). cbn [fst snd].
           split; [|split].
           ++ cbn [phases step wait_phase]. rewrite Ef, <- Hn.
              apply Z.eqb_neq in Hnz. rewrite Hnz. 
              destruct (nbytes_received s1 =? LIBUSB_ERROR_TIMEOUT); reflexivity.
           ++ reflexivity.
           ++ simpl. split; [exact Hnz|]. split; [auto|]. split; [exact Hf|].
              exists [], (delivered d s), (d_result d). auto.
    + destruct (handle_events_undefined _ _ Eh) as (bytes & E1 & E2).
      cbn [fst snd]. split; [|split].
      * cbn [phases step wait_phase]. rewrite E1. simpl.
        destruct (fatal_dispatch (d_result d)); [reflexivity|].
        assert ((Z.of_nat (length bytes) =? 0) = false) as -> by (apply Z.eqb_neq; unfold RECEIVE_BUF_SIZE in E2; lia).
        assert ((Z.of_nat (length bytes) =? LIBUSB_ERROR_TIMEOUT) = false) as ->
          by (apply Z.eqb_neq; unfold LIBUSB_ERROR_TIMEOUT; lia).
        reflexivity.
      * reflexivity.
      * simpl. exists [], bytes, (d_result d). rewrite E1. auto.
Qed.

Lemma armed_facts (s : state) :
  nbytes_received (armed s) = 0 /\ t_submitted (armed s) = true /\
  frame s (armed s).
Proof.
  unfold armed, libusb_submit_transfer. simpl.
  destruct (t_submitted s) eqn:E; simpl; repeat split; auto.
Qed.

Lemma again_nil (ds : list dispatch) (data : list byte) (s : state) :
  again [] ds data s = ([submit_event s], WrPending (armed s)).
Proof.
  unfold again, armed, submit_event, libusb_submit_transfer. simpl.
  destruct (t_submitted s); reflexivity.
Qed.

Lemma again_cons (result : Z) (ss : list Z) (ds : list dispatch)
    (data : list byte) (s : state) :
  again (result :: ss) ds data s =
  let ev_ctl := EvControl data true result in
  if result <? 0 then
    ([submit_event s; ev_ctl; EvCancel (transfer s)],
     WrReturn (-1) (armed s) ss ds)
  else
    let evs := fst (wait_loop ds (armed s)) in
    match snd (wait_loop ds (armed s)) with
    | WaitFatal r s3 ds' =>
        (submit_event s :: ev_ctl :: evs, WrReturn r s3 ss ds')
    | WaitDone s3 ds' =>
        if nbytes_received s3 =? LIBUSB_ERROR_TIMEOUT then
          (submit_event s :: ev_ctl :: evs ++ fst (again ss ds' data s3),
           snd (again ss ds' data s3))
        else
          (submit_event s :: ev_ctl :: evs,
           WrReturn (nbytes_received s3) s3 ss ds')
    | WaitPending s3 => (submit_event s :: ev_ctl :: evs, WrPending s3)
    | WaitUndefined => (submit_event s :: ev_ctl :: evs, WrUndefined)
    end.
Proof.
  cbn [again]. unfold armed, submit_event, libusb_submit_transfer,
    libusb_cancel_transfer.
  cbn [nbytes_received t_submitted set_nbytes_received].
  destruct (t_submitted s) eqn:E; cbn [fst snd transfer t_submitted set_t_submitted set_nbytes_received].
  - rewrite E. destruct (result <? 0); [reflexivity|]. cbv zeta.
    match goal with |- context [wait_loop ds ?x] => destruct (wait_loop ds x) as [evs w] end.
    cbn [fst snd]. destruct w; try reflexivity.
    destruct (nbytes_received s0 =? LIBUSB_ERROR_TIMEOUT); [|reflexivity].
    destruct (again ss ds0 data s0); reflexivity.
  - destruct (result <? 0); [reflexivity|]. cbv zeta.
    match goal with |- context [wait_loop ds ?x] => destruct (wait_loop ds x) as [evs w] end.
    cbn [fst snd]. destruct w; try reflexivity.
    destruct (nbytes_received s0 =? LIBUSB_ERROR_TIMEOUT); [|reflexivity].
    destruct (again ss ds0 data s0); reflexivity.
Qed.

Lemma phases_app (l1 l2 : list event) :
  forall p, phases p (l1 ++ l2) =
            match phases p l1 with
            | Some q => phases q l2
            | None => None
            end.
Proof.
  induction l1 as [|e l1 IH]; intros p; simpl; [reflexivity|].
  destruct (step p e); auto.
Qed.

Lemma fatal_dispatch_neg (r : Z) : fatal_dispatch r = true -> r < 0.
Proof.
  unfold fatal_dispatch. destruct (r <? 0) eqn:E; [|discriminate].
  intros _. apply Z.ltb_lt. exact E.
Qed.

(** A delivery that stores a non-negative, non-zero value is a completed
    transfer. *)
Lemma outcome_nonneg dl :
  0 <= outcome_of dl -> outcome_of dl <> 0 ->
  exists bytes, dl = Some (LIBUSB_TRANSFER_COMPLETED, bytes).
Proof.
  destruct dl as [[st bytes]|]; simpl.
  - destruct st; intros H1 H2; try (exfalso; revert H1; unfold LIBUSB_ERROR_IO,
      LIBUSB_ERROR_TIMEOUT, LIBUSB_ERROR_INTERRUPTED, LIBUSB_ERROR_NO_DEVICE; lia).
    exists bytes. reflexivity.
  - intros _ H. contradiction.
Qed.

Lemma again_spec (data : list byte) (ss : list Z) :
  forall ds s,
    run_post Idle s (fst (again ss ds data s)) (snd (again ss ds data s)).
Proof.
  induction ss as [|result ss IH]; intros ds s.
  - rewrite again_nil. simpl. split; [left; reflexivity|]. apply armed_facts.
  - rewrite again_cons. cbv zeta.
    destruct (armed_facts s) as (A0 & A1 & A2).
    destruct (result <? 0) eqn:Er.
    + simpl. rewrite Er. repeat split; try apply A2; try lia.
      * exists [submit_event s; EvControl data true result], (EvCancel (transfer s)).
        split; reflexivity.
    + destruct (wait_loop_spec ds (armed s) A0) as (W1 & W2 & W3).
      set (wevs := fst (wait_loop ds (armed s))) in *.
      assert (Hph : forall tl, phases Idle (submit_event s :: EvControl data true result :: wevs ++ tl)
                     = phases (wait_phase (snd (wait_loop ds (armed s)))) tl).
      { intros tl. cbn [phases step submit_event]. rewrite Er.
        rewrite phases_app, W1. reflexivity. }
      assert (Hph0 : phases Idle (submit_event s :: EvControl data true result :: wevs)
                     = Some (wait_phase (snd (wait_loop ds (armed s))))).
      { rewrite <- (app_nil_r wevs). rewrite Hph. reflexivity. }
      destruct (snd (wait_loop ds (armed s))) as [s3 ds'|r s3 ds'|s3|] eqn:Ew;
        cbn [wait_post wait_phase] in *.
      * destruct W3 as (a & b & c & pre & dl & r & e1 & e2 & e3 & e4).
        destruct (nbytes_received s3 =? LIBUSB_ERROR_TIMEOUT) eqn:Et.
        -- cbn [fst snd]. specialize (IH ds' s3).
           destruct (snd (again ss ds' data s3)) as [ret s' ss' ds''| s' |];
             cbn [run_post] in *.
           ++ destruct IH as (i1 & i2 & i3 & (pre' & e' & i4 & i5) & i6).
              split; [rewrite Hph; exact i1|].
              split; [eapply frame_trans; [exact A2|eapply frame_trans; eauto]|].
              split; [exact i3|]. split.
              ** exists (submit_event s :: EvControl data true result :: wevs ++ pre'), e'.
                 rewrite i4. split; [|exact i5].
                 simpl. rewrite <- app_assoc. reflexivity.
              ** intros Hret. destruct (i6 Hret) as (j1 & pre2 & bytes & r2 & j2 & j3).
                 split; [exact j1|].
                 exists (submit_event s :: EvControl data true result :: wevs ++ pre2), bytes, r2.
                 rewrite j2. split; [|exact j3].
                 simpl. rewrite <- app_assoc. reflexivity.
           ++ destruct IH as (i1 & i2). split.
              ** rewrite !Hph. exact i1.
              ** eapply frame_trans; [exact A2|eapply frame_trans; eauto].
           ++ destruct IH as (i1 & pre2 & bytes & r2 & j2 & j3).
              split; [rewrite Hph; exact i1|].
              exists (submit_event s :: EvControl data true result :: wevs ++ pre2), bytes, r2.
              rewrite j2. split; [|exact j3].
              simpl. rewrite <- app_assoc. reflexivity.
        -- cbn [fst snd run_post].
           split; [exact Hph0|].
           split; [eapply frame_trans; eauto|].
           split; [exact a|]. split.
           ++ exists (submit_event s :: EvControl data true result :: pre), (EvDispatch dl r).
              rewrite e1. split; [reflexivity|]. simpl. rewrite e2, e3. reflexivity.
           ++ intros Hret. split; [exact b|].
              rewrite <- e3 in Hret, a.
              destruct (outcome_nonneg dl Hret a) as (bytes & ->).
              exists (submit_event s :: EvControl data true result :: pre), bytes, r.
              rewrite e1. repeat split; auto; try apply e4.
      * destruct W3 as (a & b & c & pre & dl & e1).
        cbn [fst snd run_post].
        split; [exact Hph0|].
        split; [eapply frame_trans; eauto|].
        pose proof (fatal_dispatch_neg r a) as Hneg.
        split; [lia|]. split.
        -- exists (submit_event s :: EvControl data true result :: pre), (EvDispatch dl r).
           rewrite e1. split; [reflexivity|]. simpl. rewrite a. reflexivity.
        -- intros Hret. lia.
      * destruct W3 as (a & b & c). cbn [fst snd run_post].
        split; [right; exact Hph0|]. eapply frame_trans; eauto.
      * destruct W3 as (pre & bytes & r & e1 & e2). cbn [fst snd run_post].
        split; [exact Hph0|].
        exists (submit_event s :: EvControl data true result :: pre), bytes, r.
        rewrite e1. auto.
Qed.

Lemma write_read_unfold ss ds data length reply rlength s :
  write_read ss ds data length reply rlength s =
  (entry_events rlength s ++
     fst (again ss ds (sent_bytes data length) (entered reply rlength s)),
   snd (again ss ds (sent_bytes data length) (entered reply rlength s))).
Proof.
  unfold write_read, entered, entry_events.
  destruct (transfer s) as [id|] eqn:E; cbn [libusb_alloc_transfer fst snd].
  - match goal with |- context [again ss ds ?d ?x] => destruct (again ss ds d x) end.
    unfold libusb_fill_interrupt_transfer at 1. cbn [transfer]. rewrite E.
    reflexivity.
  - match goal with |- context [again ss ds ?d ?x] => destruct (again ss ds d x) end.
    reflexivity.
Qed.

Lemma entry_phases rlength s : phases Entry (entry_events rlength s) = Some Idle.
Proof. unfold entry_events. destruct (transfer s); reflexivity. Qed.

Lemma entered_facts reply rlength s :
  transfer (entered reply rlength s) =
    match transfer s with None => Some (next_transfer s) | t => t end /\
  t_buffer (entered reply rlength s) = reply /\
  t_length (entered reply rlength s) = to_int rlength /\
  (t_submitted s = false -> t_submitted (entered reply rlength s) = false) /\
  (transfer s = None -> t_submitted (entered reply rlength s) = false) /\
  ctx (entered reply rlength s) = ctx s.
Proof.
  unfold entered. destruct (transfer s) eqn:E; simpl; rewrite ?E; repeat split; auto.
  discriminate.
Qed.

Lemma write_read_spec ss ds data length reply rlength s :
  run_post Entry (entered reply rlength s)
    (fst (write_read ss ds data length reply rlength s))
    (snd (write_read ss ds data length reply rlength s)).
Proof.
  rewrite write_read_unfold. cbn [fst snd].
  pose proof (again_spec (sent_bytes data length) ss ds
                (entered reply rlength s)) as H.
  set (evs := fst (again ss ds _ _)) in *.
  assert (Hph : phases Entry (entry_events rlength s ++ evs) = phases Idle evs).
  { rewrite phases_app, entry_phases. reflexivity. }
  destruct (snd (again ss ds _ _)) as [ret s' ss' ds'|s'|]; cbn [run_post] in *.
  - destruct H as (h1 & h2 & h3 & (pre & e & h4 & h5) & h6).
    split; [rewrite Hph; exact h1|]. split; [exact h2|]. split; [exact h3|].
    split.
    + exists (entry_events rlength s ++ pre), e. rewrite h4, app_assoc. auto.
    + intros Hr. destruct (h6 Hr) as (j1 & pre2 & bytes & r & j2 & j3).
      split; [exact j1|].
      exists (entry_events rlength s ++ pre2), bytes, r. rewrite j2, app_assoc. auto.
  - rewrite !Hph. exact H.
  - destruct H as (h1 & pre2 & bytes & r & j2 & j3).
    split; [rewrite Hph; exact h1|].
    exists (entry_events rlength s ++ pre2), bytes, r. rewrite j2, app_assoc. auto.
Qed.

(** ** The state machine alone *)

Lemma phases_split (pre post : list event) (e : event) (p q : phase) :
  phases p (pre ++ e :: post) = Some q ->
  exists p1 p2, phases p pre = Some p1 /\ step p1 e = Some p2 /\
                phases p2 post = Some q.
Proof.
  rewrite phases_app. destruct (phases p pre) as [p1|]; [|discriminate].
  simpl. destruct (step p1 e) as [p2|] eqn:E; [|discriminate].
  intros H. exists p1, p2. auto.
Qed.

Lemma phases_closed (evs : list event) (q : phase) :
  phases Closed evs = Some q -> evs = [] /\ q = Closed.
Proof.
  destruct evs as [|e evs]; simpl.
  - intros [= <-]. auto.
  - destruct e; discriminate.
Qed.

(** Only a submission leads to [Armed], only [Armed] accepts a send. *)
Lemma step_to_armed (p : phase) (e : event) :
  step p e = Some Armed -> p = Idle /\ is_submit e = true.
Proof.
  destruct p; destruct_event e; simpl; try discriminate; auto.
  - destruct arm; [destruct (ret <? 0)|]; discriminate.
  - destruct (fatal_dispatch ret); [discriminate|].
    destruct (outcome_of dl =? 0); [discriminate|].
    destruct (outcome_of dl =? LIBUSB_ERROR_TIMEOUT); discriminate.
Qed.

Lemma step_control (p q : phase) (e : event) :
  is_control e = true -> step p e = Some q ->
  p = Armed /\ exists data ret, e = EvControl data true ret /\
                 q = if ret <? 0 then Failed else Waiting.
Proof.
  destruct_event e; try discriminate. intros _.
  destruct p; simpl; try discriminate.
  destruct arm; [|discriminate]. intros [= <-].
  split; [reflexivity|]. eauto.
Qed.

Lemma step_dispatch (p q : phase) dl r :
  step p (EvDispatch dl r) = Some q ->
  p = Waiting /\
  q = if fatal_dispatch r then Closed
      else if outcome_of dl =? 0 then Waiting
      else if outcome_of dl =? LIBUSB_ERROR_TIMEOUT then Idle
      else Closed.
Proof. destruct p; simpl; try discriminate. intros [= <-]. auto. Qed.

Lemma step_from_armed (q : phase) (e : event) :
  step Armed e = Some q -> is_control e = true.
Proof. destruct e; simpl; try discriminate. auto. Qed.

Lemma step_from_idle (q : phase) (e : event) :
  step Idle e = Some q -> is_submit e = true /\ q = Armed.
Proof. destruct e; simpl; try discriminate. intros [= <-]. auto. Qed.

Lemma step_from_failed (q : phase) (e : event) :
  step Failed e = Some q -> is_cancel e = true /\ q = Closed.
Proof. destruct e; simpl; try discriminate. intros [= <-]. auto. Qed.

Lemma step_cancel (p q : phase) (e : event) :
  is_cancel e = true -> step p e = Some q -> p = Failed /\ q = Closed.
Proof.
  destruct_event e; try discriminate. intros _.
  destruct p; simpl; try discriminate. intros [= <-]. auto.
Qed.

(** A retry is the step from [Waiting] back to [Idle]. *)
Lemma step_retry (p q : phase) (e : event) :
  step p e = Some q ->
  is_retry e = match p, q with Waiting, Idle => true | _, _ => false end.
Proof.
  destruct_event e; simpl; try (destruct p; simpl; try discriminate;
                          intros [= <-]; reflexivity).
  - destruct p; simpl; try discriminate.
    destruct arm; [|discriminate]. intros [= <-].
    destruct (ret <? 0); reflexivity.
  - intros H. destruct (step_dispatch _ _ _ _ H) as (-> & ->).
    destruct (fatal_dispatch ret); [reflexivity|]. simpl.
    destruct (outcome_of dl =? 0) eqn:E0.
    + apply Z.eqb_eq in E0. rewrite E0. reflexivity.
    + destruct (outcome_of dl =? LIBUSB_ERROR_TIMEOUT); reflexivity.
Qed.

Lemma count_cons (f : event -> bool) (e : event) (evs : list event) :
  count f (e :: evs) = ((if f e then 1 else 0) + count f evs)%nat.
Proof. unfold count. simpl. destruct (f e); reflexivity. Qed.

Lemma count_app (f : event -> bool) (l1 l2 : list event) :
  count f (l1 ++ l2) = (count f l1 + count f l2)%nat.
Proof. unfold count. rewrite filter_app, length_app. reflexivity. Qed.

Lemma phases_counts (evs : list event) :
  forall p, phases p evs = Some Closed ->
    count is_submit evs = (count is_retry evs + due_submit p)%nat /\
    count is_control evs = (count is_retry evs + due_control p)%nat.
Proof.
  induction evs as [|e evs IH]; intros p H.
  - simpl in H. injection H as ->. auto.
  - simpl in H. destruct (step p e) as [q|] eqn:E; [|discriminate].
    destruct (IH q H) as (IH1 & IH2).
    rewrite !count_cons, IH1, IH2, (step_retry _ _ _ E).
    destruct p; destruct_event e; simpl in E; try discriminate;
      try (injection E as <-; simpl; lia).
    + destruct arm; [|discriminate]. injection E as <-.
      destruct (ret <? 0); simpl; lia.
    + injection E as <-.
      destruct (fatal_dispatch ret); [simpl; lia|].
      destruct (outcome_of dl =? 0); [simpl; lia|].
      destruct (outcome_of dl =? LIBUSB_ERROR_TIMEOUT); simpl; lia.
Qed.

(** Cancellations: one after a failed send, none otherwise. *)
Lemma phases_cancel (evs : list event) :
  forall p q, phases p evs = Some q -> q <> Failed ->
    count is_cancel evs =
      (count is_failed_send evs + match p with Failed => 1 | _ => 0 end)%nat /\
    (count is_cancel evs <= 1)%nat.
Proof.
  induction evs as [|e evs IH]; intros p q H Hq.
  - simpl in H. injection H as ->. unfold count. simpl.
    destruct q; try contradiction; auto.
  - simpl in H. destruct (step p e) as [p'|] eqn:E; [|discriminate].
    destruct (IH p' q H Hq) as (IH1 & IH2).
    rewrite !count_cons, IH1.
    destruct p; destruct_event e; simpl in E; try discriminate;
      try (injection E as <-; simpl; simpl in IH1; lia).
    + destruct arm; [|discriminate]. injection E as <-.
      simpl. destruct (ret <? 0); simpl; simpl in IH1; lia.
    + injection E as <-. apply phases_closed in H. destruct H as (-> & _).
      unfold count. simpl. lia.
    + injection E as <-. simpl.
      destruct (fatal_dispatch ret); [simpl in *; lia|].
      destruct (outcome_of dl =? 0); [simpl in *; lia|].
      destruct (outcome_of dl =? LIBUSB_ERROR_TIMEOUT); simpl in *; lia.
Qed.

(** No accepted trace frees a descriptor, and allocation happens only at
    [Entry]. *)
Lemma step_alloc_free (p q : phase) (e : event) :
  step p e = Some q ->
  is_free e = false /\ q <> Entry /\ (is_alloc e = true -> p = Entry).
Proof.
  destruct p; destruct_event e;
    simpl; try discriminate;
    try (intros [= <-]; repeat split; try discriminate; auto; fail).
  - destruct arm; [|discriminate]. intros [= <-].
    repeat split; try discriminate. destruct (ret <? 0); discriminate.
  - intros [= <-]. repeat split; try discriminate.
    destruct (fatal_dispatch ret); [discriminate|].
    destruct (outcome_of dl =? 0); [discriminate|].
    destruct (outcome_of dl =? LIBUSB_ERROR_TIMEOUT); discriminate.
Qed.

Lemma phases_alloc_free (evs : list event) :
  forall p q, phases p evs = Some q ->
    count is_free evs = 0%nat /\
    (p <> Entry -> count is_alloc evs = 0%nat) /\
    (count is_alloc evs <= 1)%nat.
Proof.
  induction evs as [|e evs IH]; intros p q H.
  - unfold count. simpl. auto.
  - simpl in H. destruct (step p e) as [p'|] eqn:E; [|discriminate].
    destruct (IH p' q H) as (IH1 & IH2 & IH3).
    destruct (step_alloc_free _ _ _ E) as (F1 & F2 & F3).
    rewrite !count_cons, IH1, F1, (IH2 F2).
    split; [reflexivity|]. split.
    + intros Hp. destruct (is_alloc e); [|reflexivity].
      exfalso. apply Hp. apply F3. reflexivity.
    + destruct (is_alloc e); simpl; lia.
Qed.

Lemma write_read_phases ss ds data length reply rlength s :
  exists q,
    phases Entry (fst (write_read ss ds data length reply rlength s)) = Some q /\
    match snd (write_read ss ds data length reply rlength s) with
    | WrPending _ => q = Armed \/ q = Waiting
    | _ => q = Closed
    end.
Proof.
  pose proof (write_read_spec ss ds data length reply rlength s) as H.
  destruct (snd (write_read ss ds data length reply rlength s)); cbn [run_post] in H.
  - exists Closed. split; [apply H|reflexivity].
  - destruct H as ([H|H] & _); eauto.
  - exists Closed. split; [apply H|reflexivity].
Qed.

Lemma hid_send_recv_fst ss ds data nbytes rdata rlength s :
  fst (hid_send_recv ss ds data nbytes rdata rlength s) =
  fst (write_read ss ds data nbytes rdata rlength s).
Proof.
  unfold hid_send_recv.
  destruct (write_read ss ds data nbytes rdata rlength s) as [evs r].
  destruct r; try reflexivity. simpl.
  destruct (ret <? 0); [reflexivity|].
  destruct (negb (to_unsigned ret =? rlength)); reflexivity.
Qed.

Lemma hid_send_recv_snd ss ds data nbytes rdata rlength s :
  snd (hid_send_recv ss ds data nbytes rdata rlength s) =
  match snd (write_read ss ds data nbytes rdata rlength s) with
  | WrReturn reply_len s' ss' ds' =>
      if reply_len <? 0 then HidExit (ExitWriteRead reply_len) s'
      else if negb (to_unsigned reply_len =? rlength)
      then HidExit (ExitShortRead reply_len rlength) s'
      else HidReturn s' ss' ds'
  | WrPending s' => HidPending s'
  | WrUndefined => HidUndefined
  end.
Proof.
  unfold hid_send_recv.
  destruct (write_read ss ds data nbytes rdata rlength s) as [evs r].
  destruct r; try reflexivity. simpl.
  destruct (ret <? 0); [reflexivity|].
  destruct (negb (to_unsigned ret =? rlength)); reflexivity.
Qed.

Lemma to_unsigned_small (x : Z) :
  0 <= x <= RECEIVE_BUF_SIZE -> to_unsigned x = x.
Proof.
  unfold to_unsigned, RECEIVE_BUF_SIZE. intros H.
  apply Z.mod_small. lia.
Qed.

(** ** A completed transfer of zero bytes *)

Lemma delivered_unsubmitted (d : dispatch) (s : state) :
  t_submitted s = false -> delivered d s = None.
Proof. unfold delivered. intros ->. destruct (d_completion d); reflexivity. Qed.

(** With no receive in flight and the slot at [0], the loop can only be left
    by a fatal dispatch result. *)
Lemma wait_loop_unarmed (ds : list dispatch) :
  forall s, nbytes_received s = 0 -> t_submitted s = false ->
    match snd (wait_loop ds s) with
    | WaitPending _ => True
    | WaitFatal r _ _ => fatal_dispatch r = true
    | _ => False
    end /\
    Forall (fun e => exists r, e = EvDispatch None r) (fst (wait_loop ds s)).
Proof.
  induction ds as [|d ds IH]; intros s H0 Hs.
  - simpl. rewrite H0. simpl. auto.
  - rewrite (wait_loop_cons _ _ _ H0). cbv zeta.
    rewrite (delivered_unsubmitted d s Hs).
    rewrite (handle_events_idle _ _ (delivered_unsubmitted d s Hs)).
    destruct (fatal_dispatch (d_result d)) eqn:Ef; cbn [fst snd].
    + split; [exact Ef|]. constructor; eauto.
    + destruct (IH s H0 Hs) as (I1 & I2). split; [exact I1|].
      constructor; eauto.
Qed.

(** If the callback is run for a completed transfer of zero bytes, the loop
    is not left through its condition. *)
Lemma wait_loop_empty_completion (ds : list dispatch) :
  forall s r, nbytes_received s = 0 ->
    In (EvDispatch (Some (LIBUSB_TRANSFER_COMPLETED, [])) r) (fst (wait_loop ds s)) ->
    match snd (wait_loop ds s) with
    | WaitPending _ => True
    | WaitFatal r' _ _ => fatal_dispatch r' = true
    | _ => False
    end.
Proof.
  induction ds as [|d ds IH]; intros s r H0.
  - simpl. rewrite H0. simpl. contradiction.
  - rewrite (wait_loop_cons _ _ _ H0). cbv zeta.
    destruct (libusb_handle_events d s) as [s1|] eqn:Eh.
    + destruct (fatal_dispatch (d_result d)) eqn:Ef; cbn [fst snd]; [auto|].
      destruct (handle_events_step _ _ _ H0 Eh) as (Hn & _ & _ & _).
      intros [Hin|Hin].
      * injection Hin as Hd _.
        destruct (handle_events_delivered _ _ _ _ _ Hd Eh) as (a & b & _).
        simpl in a. apply (wait_loop_unarmed ds s1 a b).
      * destruct (Z.eq_dec (nbytes_received s1) 0) as [Hz|Hnz].
        -- apply (IH s1 r Hz Hin).
        -- rewrite (wait_loop_nonzero ds s1 Hnz) in Hin. contradiction.
    + destruct (handle_events_undefined _ _ Eh) as (bytes & E1 & E2).
      cbn [fst snd]. intros [Hin|[]]. rewrite E1 in Hin.
      injection Hin as -> _. simpl in E2. unfold RECEIVE_BUF_SIZE in E2. lia.
Qed.

Lemma again_empty_completion (data : list byte) (ss : list Z) :
  forall ds s r,
    In (EvDispatch (Some (LIBUSB_TRANSFER_COMPLETED, [])) r)
       (fst (again ss ds data s)) ->
    match snd (again ss ds data s) with
    | WrReturn ret _ _ _ => ret < 0
    | WrPending _ => True
    | WrUndefined => False
    end.
Proof.
  induction ss as [|result ss IH]; intros ds s r.
  - rewrite again_nil. cbn [fst snd]. auto.
  - rewrite again_cons. cbv zeta.
    destruct (armed_facts s) as (A0 & A1 & A2).
    destruct (result <? 0) eqn:Er; cbn [fst snd]; [lia|].
    pose proof (wait_loop_empty_completion ds (armed s) r A0) as W.
    destruct (wait_loop_spec ds (armed s) A0) as (_ & _ & W3).
    destruct (snd (wait_loop ds (armed s))) as [s3 ds'|r' s3 ds'|s3|] eqn:Ew;
      cbn [wait_post] in W3.
    + destruct (nbytes_received s3 =? LIBUSB_ERROR_TIMEOUT) eqn:Et; cbn [fst snd].
      * intros [Hin|[Hin|Hin]]; try discriminate.
        apply in_app_or in Hin. destruct Hin as [Hin|Hin].
        -- destruct (W Hin).
        -- apply (IH ds' s3 r Hin).
      * intros [Hin|[Hin|Hin]]; try discriminate. destruct (W Hin).
    + cbn [fst snd]. intros _. apply fatal_dispatch_neg. apply W3.
    + cbn [fst snd]. auto.
    + cbn [fst snd]. intros [Hin|[Hin|Hin]]; try discriminate. destruct (W Hin).
Qed.

(** ** Dispatches that end a call *)

Lemma phases_terminal (pre post : list event) dl r (p q : phase) :
  phases p (pre ++ EvDispatch dl r :: post) = Some q ->
  fatal_dispatch r = true \/
    (outcome_of dl <> 0 /\ outcome_of dl <> LIBUSB_ERROR_TIMEOUT) ->
  post = [] /\ q = Closed.
Proof.
  intros H C. destruct (phases_split _ _ _ _ _ H) as (p1 & p2 & _ & S & P).
  destruct (step_dispatch _ _ _ _ S) as (_ & ->).
  assert (E : (if fatal_dispatch r then Closed
               else if outcome_of dl =? 0 then Waiting
               else if outcome_of dl =? LIBUSB_ERROR_TIMEOUT then Idle
               else Closed) = Closed).
  { destruct (fatal_dispatch r); [reflexivity|].
    destruct C as [C|(C1 & C2)]; [discriminate|].
    apply Z.eqb_neq in C1, C2. rewrite C1, C2. reflexivity. }
  rewrite E in P. apply phases_closed. exact P.
Qed.

Lemma terminal_dispatch_last ss ds data length reply rlength s pre dl r post :
  fst (write_read ss ds data length reply rlength s) =
    pre ++ EvDispatch dl r :: post ->
  fatal_dispatch r = true \/
    (outcome_of dl <> 0 /\ outcome_of dl <> LIBUSB_ERROR_TIMEOUT) ->
  post = [] /\
  match snd (write_read ss ds data length reply rlength s) with
  | WrReturn ret _ _ _ =>
      ret = (if fatal_dispatch r then r else outcome_of dl) /\
      (0 <= ret -> ret <= RECEIVE_BUF_SIZE)
  | WrPending _ => False
  | WrUndefined =>
      exists bytes, dl = Some (LIBUSB_TRANSFER_COMPLETED, bytes) /\
                    RECEIVE_BUF_SIZE < Z.of_nat (List.length bytes)
  end.
Proof.
  intros E C.
  pose proof (write_read_spec ss ds data length reply rlength s) as H.
  rewrite E in H.
  assert (T : forall q, phases Entry (pre ++ EvDispatch dl r :: post) = Some q ->
                        post = [] /\ q = Closed).
  { intros q Hq. eapply phases_terminal; eauto. }
  destruct (snd (write_read ss ds data length reply rlength s))
    as [ret s' ss' ds'|s'|]; cbn [run_post] in H.
  - destruct H as (h1 & _ & _ & (pre' & e' & h4 & h5) & h6).
    destruct (T _ h1) as (-> & _). split; [reflexivity|].
    apply app_inj_tail in h4. destruct h4 as (_ & <-).
    simpl in h5. injection h5 as <-. split; [reflexivity|].
    intros Hr. destruct (h6 Hr) as (_ & pre2 & bytes & r2 & j1 & _ & j2 & _ & _ & j3).
    rewrite j2. exact j3.
  - destruct H as ([h1|h1] & _); destruct (T _ h1) as (_ & X); discriminate.
  - destruct H as (h1 & pre2 & bytes & r2 & j1 & j2).
    destruct (T _ h1) as (-> & _). split; [reflexivity|].
    apply app_inj_tail in j1. destruct j1 as (_ & [= -> _]).
    exists bytes. auto.
Qed.

Lemma entry_events_dispatch rlength s dl r :
  ~ In (EvDispatch dl r) (entry_events rlength s).
Proof.
  unfold entry_events. destruct (transfer s); simpl; intros H;
    repeat (destruct H as [H|H]; try discriminate); auto.
Qed.

(** When [hid_send_recv] returns, the last dispatch delivered a completed
    transfer of [rlength] bytes. *)
Lemma hid_return_inv ss ds data nbytes rdata rlength s s' ss' ds' :
  snd (hid_send_recv ss ds data nbytes rdata rlength s) = HidReturn s' ss' ds' ->
  exists pre bytes r,
    fst (hid_send_recv ss ds data nbytes rdata rlength s) =
      pre ++ [EvDispatch (Some (LIBUSB_TRANSFER_COMPLETED, bytes)) r] /\
    Z.of_nat (length bytes) = rlength /\
    snd (write_read ss ds data nbytes rdata rlength s) =
      WrReturn rlength s' ss' ds'.
Proof.
  rewrite hid_send_recv_fst, hid_send_recv_snd.
  pose proof (write_read_spec ss ds data nbytes rdata rlength s) as H.
  destruct (snd (write_read ss ds data nbytes rdata rlength s))
    as [ret s1 ss1 ds1|s1|]; try discriminate.
  cbn [run_post] in H. destruct H as (_ & _ & _ & _ & H).
  destruct (ret <? 0) eqn:Eneg; [discriminate|]. apply Z.ltb_ge in Eneg.
  destruct (to_unsigned ret =? rlength) eqn:Elen; [|discriminate].
  simpl. intros [= -> -> ->].
  destruct (H Eneg) as (_ & pre & bytes & r & E1 & _ & E2 & E3 & E4 & E5).
  apply Z.eqb_eq in Elen. rewrite to_unsigned_small in Elen by lia.
  exists pre, bytes, r. split; [exact E1|]. split; [lia|]. congruence.
Qed.

(** ** One attempt *)

Lemma step_submit (p q : phase) (e : event) :
  is_submit e = true -> step p e = Some q -> p = Idle /\ q = Armed.
Proof.
  destruct_event e;
    try discriminate. intros _.
  destruct p; simpl; try discriminate. intros [= <-]. auto.
Qed.

(** A trace that leads from [Entry] to [Armed] ends with a submission. *)
Lemma phases_into_armed (pre : list event) :
  phases Entry pre = Some Armed ->
  exists pre' b, pre = pre' ++ [b] /\ is_submit b = true.
Proof.
  destruct pre as [|x pre] using rev_ind; [discriminate|].
  intros H. destruct (phases_split _ _ _ _ _ H) as (p1 & p2 & _ & S & P).
  simpl in P. injection P as ->.
  exists pre, x. split; [reflexivity|]. apply (step_to_armed _ _ S).
Qed.

(** The attempt in which the first dispatch already stores an outcome. *)
Lemma again_outcome r0 ss d ds data s s1 :
  0 <= r0 ->
  libusb_handle_events d (armed s) = Some s1 ->
  fatal_dispatch (d_result d) = false ->
  nbytes_received s1 <> 0 ->
  again (r0 :: ss) (d :: ds) data s =
  let evs := [submit_event s; EvControl data true r0;
              EvDispatch (delivered d (armed s)) (d_result d)] in
  if nbytes_received s1 =? LIBUSB_ERROR_TIMEOUT
  then (evs ++ fst (again ss ds data s1), snd (again ss ds data s1))
  else (evs, WrReturn (nbytes_received s1) s1 ss ds).
Proof.
  intros Hr Hh Hf Hn. rewrite again_cons. cbv zeta.
  apply Z.ltb_ge in Hr. rewrite Hr.
  rewrite wait_loop_cons by apply armed_facts. cbv zeta.
  rewrite Hh, Hf, (wait_loop_nonzero ds s1 Hn). cbn [fst snd].
  destruct (nbytes_received s1 =? LIBUSB_ERROR_TIMEOUT); reflexivity.
Qed.

(** A dispatch that delivers a status other than "completed" to an armed
    receive. *)
Lemma handle_events_status st data r s :
  st <> LIBUSB_TRANSFER_COMPLETED -> t_submitted s = true ->
  exists s1,
    libusb_handle_events (mkDispatch (Some (mkCompletion st data)) r) s = Some s1 /\
    nbytes_received s1 = outcome_of (Some (st, @nil byte)) /\
    t_submitted s1 = false /\ frame s s1.
Proof.
  intros Hst Hs.
  set (d := mkDispatch (Some (mkCompletion st data)) r).
  assert (Hd : delivered d s = Some (st, received (mkCompletion st data) s)).
  { unfold delivered. simpl. rewrite Hs. reflexivity. }
  destruct (libusb_handle_events d s) as [s1|] eqn:E.
  - exists s1. split; [reflexivity|].
    destruct (handle_events_delivered _ _ _ _ _ Hd E) as (a & b & c & _).
    split; [|auto]. rewrite a. destruct st; try reflexivity. contradiction.
  - destruct (handle_events_undefined _ _ E) as (bytes & E1 & _).
    rewrite Hd in E1. injection E1 as -> _. contradiction.
Qed.

Lemma again_timeouts (data : list byte) (k : nat) :
  forall s, t_length s = 8 ->
    (exists s', snd (again (repeat 0 (S k)) (timeouts_then_reply k) data s) =
                WrReturn 8 s' [] []) /\
    count is_retry (fst (again (repeat 0 (S k)) (timeouts_then_reply k) data s)) = k.
Proof.
  unfold timeouts_then_reply.
  induction k as [|k IH]; intros s Hl.
  - cbn [repeat app].
    destruct (armed_facts s) as (A0 & A1 & A2).
    assert (Hd : delivered (completes reply8) (armed s) =
                 Some (LIBUSB_TRANSFER_COMPLETED, reply8)).
    { unfold delivered, received. simpl. rewrite A1.
      destruct A2 as (_ & _ & _ & _ & ->). rewrite Hl. reflexivity. }
    destruct (libusb_handle_events (completes reply8) (armed s)) as [s1|] eqn:E.
    + destruct (handle_events_delivered _ _ _ _ _ Hd E) as (a & _).
      simpl in a.
      rewrite (again_outcome 0 [] _ [] data s s1 (Z.le_refl 0) E eq_refl)
        by (rewrite a; discriminate).
      cbv zeta. rewrite a, Hd.
      replace (8 =? LIBUSB_ERROR_TIMEOUT) with false by reflexivity.
      cbn [fst snd]. split; [eexists; reflexivity|]. reflexivity.
    + destruct (handle_events_undefined _ _ E) as (bytes & E1 & E2).
      rewrite Hd in E1. injection E1 as <-. simpl in E2. unfold RECEIVE_BUF_SIZE in E2. lia.
  - cbn [repeat app].
    destruct (armed_facts s) as (A0 & A1 & A2).
    destruct (handle_events_status LIBUSB_TRANSFER_TIMED_OUT [] 0 (armed s))
      as (s1 & E & a & b & c); [discriminate|exact A1|].
    change (mkDispatch (Some (mkCompletion LIBUSB_TRANSFER_TIMED_OUT [])) 0)
      with (ends_with LIBUSB_TRANSFER_TIMED_OUT) in E.
    simpl in a.
    rewrite (again_outcome 0 _ _ _ data s s1 (Z.le_refl 0) E eq_refl)
      by (rewrite a; discriminate).
    cbv zeta. rewrite a, Z.eqb_refl. cbn [fst snd].
    assert (Hl1 : t_length s1 = 8).
    { destruct c as (_ & _ & _ & _ & ->). destruct A2 as (_ & _ & _ & _ & ->). exact Hl. }
    destruct (IH s1 Hl1) as (I1 & I2).
    split; [exact I1|].
    rewrite count_app. change (0 :: repeat 0 k) with (repeat 0 (S k)).
    rewrite I2. unfold delivered. simpl. rewrite A1. reflexivity.
Qed.

(** A failed send is followed by one cancellation, which ends the call with
    [-1]. *)
Lemma failed_send_last ss ds data length reply rlength s pre e post :
  fst (write_read ss ds data length reply rlength s) = pre ++ e :: post ->
  is_failed_send e = true ->
  exists c, post = [c] /\ is_cancel c = true /\
    exists s' ss' ds',
      snd (write_read ss ds data length reply rlength s) =
      WrReturn (-1) s' ss' ds'.
Proof.
  intros E He.
  pose proof (write_read_spec ss ds data length reply rlength s) as H.
  rewrite E in H.
  assert (Hc : is_control e = true) by (destruct e; try discriminate; reflexivity).
  assert (T : forall q, phases Entry (pre ++ e :: post) = Some q ->
            q <> Failed -> exists c, post = [c] /\ is_cancel c = true).
  { intros q P Hq. destruct (phases_split _ _ _ _ _ P) as (p1 & p2 & _ & S & P2).
    destruct (step_control _ _ _ Hc S) as (_ & d & ret & -> & ->).
    simpl in He. rewrite He in P2.
    destruct post as [|c post']; [simpl in P2; congruence|].
    cbn [phases] in P2. destruct (step Failed c) as [p3|] eqn:S3; [|discriminate].
    destruct (step_from_failed _ _ S3) as (Hcan & ->).
    apply phases_closed in P2. destruct P2 as (-> & _). eauto. }
  destruct (snd (write_read ss ds data length reply rlength s))
    as [ret s' ss' ds'|s'|]; cbn [run_post] in H.
  - destruct H as (h1 & _ & _ & (pre' & e' & h4 & h5) & _).
    destruct (T _ h1) as (c & -> & Hcan); [discriminate|].
    exists c. split; [reflexivity|]. split; [exact Hcan|].
    change (pre ++ [e; c]) with (pre ++ [e] ++ [c]) in h4.
    rewrite app_assoc in h4. apply app_inj_tail in h4. destruct h4 as (_ & <-).
    destruct c; try discriminate. simpl in h5. injection h5 as <-. eauto.
  - destruct H as ([h1|h1] & _).
    + destruct (T _ h1) as (c & -> & Hcan); [discriminate|].
      rewrite phases_app in h1. destruct (phases Entry pre) as [p1|]; [|discriminate].
      cbn [phases] in h1. destruct (step p1 e) as [p2|]; [|discriminate].
      destruct (step p2 c) as [p3|] eqn:S3; [|discriminate].
      injection h1 as ->. destruct (step_cancel _ _ _ Hcan S3). discriminate.
    + destruct (T _ h1) as (c & -> & Hcan); [discriminate|].
      rewrite phases_app in h1. destruct (phases Entry pre) as [p1|]; [|discriminate].
      cbn [phases] in h1. destruct (step p1 e) as [p2|]; [|discriminate].
      destruct (step p2 c) as [p3|] eqn:S3; [|discriminate].
      injection h1 as ->. destruct (step_cancel _ _ _ Hcan S3). discriminate.
  - destruct H as (h1 & pre2 & bytes & r2 & j1 & _).
    destruct (T _ h1) as (c & -> & Hcan); [discriminate|].
    change (pre ++ [e; c]) with (pre ++ [e] ++ [c]) in j1.
    rewrite app_assoc in j1. apply app_inj_tail in j1. destruct j1 as (_ & ->).
    discriminate.
Qed.

(** ** The descriptor named by the events *)

Lemma wait_loop_names (t : option nat) (ds : list dispatch) (s : state) :
  nbytes_received s = 0 -> Forall (names t) (fst (wait_loop ds s)).
Proof.
  intros H0. destruct (wait_loop_spec ds s H0) as (_ & W & _).
  rewrite forallb_forall in W. apply Forall_forall. intros e He.
  specialize (W e He). destruct e; try discriminate. exact I.
Qed.

Lemma again_names (data : list byte) (ss : list Z) :
  forall ds s, Forall (names (transfer s)) (fst (again ss ds data s)).
Proof.
  induction ss as [|result ss IH]; intros ds s.
  - rewrite again_nil. repeat constructor.
  - rewrite again_cons. cbv zeta.
    destruct (armed_facts s) as (A0 & A1 & A2).
    destruct (result <? 0); [repeat constructor|].
    pose proof (wait_loop_names (transfer s) ds (armed s) A0) as W.
    destruct (wait_loop_spec ds (armed s) A0) as (_ & _ & W3).
    destruct (snd (wait_loop ds (armed s))) as [s3 ds'|r s3 ds'|s3|];
      cbn [wait_post] in W3; cbn [fst];
      try (constructor; [reflexivity|constructor; [exact I|exact W]]).
    destruct (nbytes_received s3 =? LIBUSB_ERROR_TIMEOUT); cbn [fst];
      [|constructor; [reflexivity|constructor; [exact I|exact W]]].
    constructor; [reflexivity|]. constructor; [exact I|].
    apply Forall_app. split; [exact W|].
    destruct W3 as (_ & _ & (T3 & _) & _). destruct A2 as (T2 & _).
    rewrite <- T2, <- T3. apply IH.
Qed.

Lemma write_read_names ss ds data length reply rlength s :
  Forall (names (transfer (entered reply rlength s)))
         (fst (write_read ss ds data length reply rlength s)).
Proof.
  rewrite write_read_unfold. cbn [fst]. apply Forall_app. split.
  - destruct (entered_facts reply rlength s) as (-> & _).
    unfold entry_events. destruct (transfer s); repeat constructor.
  - apply again_names.
Qed.

(** ** Submissions and the receive in flight *)

Lemma forallb_dispatch_submit_free (evs : list event) :
  forallb is_dispatch evs = true -> forallb submit_free evs = true.
Proof.
  rewrite !forallb_forall. intros H e He. specialize (H e He).
  destruct e; try discriminate. reflexivity.
Qed.

Lemma again_submits (data : list byte) (ss : list Z) :
  forall ds s, t_submitted s = false ->
    forallb submit_free (fst (again ss ds data s)) = true.
Proof.
  induction ss as [|result ss IH]; intros ds s Hs.
  - rewrite again_nil. unfold submit_event. rewrite Hs. reflexivity.
  - rewrite again_cons. cbv zeta.
    destruct (armed_facts s) as (A0 & A1 & A2).
    assert (Hsub : submit_free (submit_event s) = true).
    { unfold submit_event. rewrite Hs. reflexivity. }
    destruct (result <? 0); [cbn [fst forallb]; rewrite Hsub; reflexivity|].
    destruct (wait_loop_spec ds (armed s) A0) as (_ & W & W3).
    apply forallb_dispatch_submit_free in W.
    destruct (snd (wait_loop ds (armed s))) as [s3 ds'|r s3 ds'|s3|];
      cbn [wait_post] in W3; cbn [fst forallb];
      try (rewrite Hsub, W; reflexivity).
    destruct (nbytes_received s3 =? LIBUSB_ERROR_TIMEOUT); cbn [fst forallb];
      [|rewrite Hsub, W; reflexivity].
    rewrite Hsub, forallb_app, W. destruct W3 as (_ & b & _).
    rewrite (IH ds' s3 b). reflexivity.
Qed.

Lemma hid_send_recv_submits ss ds data nbytes rdata rlength s :
  t_submitted s = false ->
  forallb submit_free (fst (hid_send_recv ss ds data nbytes rdata rlength s)) = true /\
  forall s' ss' ds',
    snd (hid_send_recv ss ds data nbytes rdata rlength s) = HidReturn s' ss' ds' ->
    t_submitted s' = false.
Proof.
  intros Hs. split.
  - rewrite hid_send_recv_fst, write_read_unfold. cbn [fst].
    rewrite forallb_app. rewrite again_submits.
    + rewrite andb_true_r. unfold entry_events. destruct (transfer s); reflexivity.
    + destruct (entered_facts rdata rlength s) as (_ & _ & _ & F & _).
      exact (F Hs).
  - intros s' ss' ds' H.
    destruct (hid_return_inv _ _ _ _ _ _ _ _ _ _ H) as (pre & bytes & r & _ & Hb & Hw).
    pose proof (write_read_spec ss ds data nbytes rdata rlength s) as P.
    rewrite Hw in P. cbn [run_post] in P.
    destruct P as (_ & _ & _ & _ & P). apply P. lia.
Qed.

Lemma hid_init_submitted vid pid a s :
  t_submitted (match hid_init vid pid a s with
               | InitReturn _ s' | InitExit _ s' => s'
               end) = t_submitted s.
Proof.
  unfold hid_init. destruct (init_error a <? 0); [reflexivity|].
  destruct (device_found a); simpl; [|reflexivity].
  destruct (claim_error a <? 0); reflexivity.
Qed.

Lemma hid_close_submitted s : t_submitted (snd (hid_close s)) = t_submitted s.
Proof.
  unfold hid_close. destruct (ctx s); simpl; [|reflexivity].
  destruct (transfer s); reflexivity.
Qed.

Lemma hid_close_events s :
  fst (hid_close s) =
  if ctx s then match transfer s with Some id => [EvFree id] | None => [] end
  else [].
Proof.
  unfold hid_close. destruct (ctx s); simpl; [|reflexivity].
  destruct (transfer s); reflexivity.
Qed.

(** ** The life of the descriptor *)

Lemma write_read_descriptor ss ds data length reply rlength s :
  count is_alloc (fst (write_read ss ds data length reply rlength s)) =
    match transfer s with None => 1%nat | Some _ => 0%nat end /\
  count is_free (fst (write_read ss ds data length reply rlength s)) = 0%nat /\
  (transfer s = None ->
   exists tl, fst (write_read ss ds data length reply rlength s) =
              EvAlloc (next_transfer s) :: tl) /\
  Forall (names (descriptor s)) (fst (write_read ss ds data length reply rlength s)) /\
  (forall ret s' ss' ds',
      snd (write_read ss ds data length reply rlength s) = WrReturn ret s' ss' ds' ->
      transfer s' = descriptor s /\ next_transfer s' =
        match transfer s with None => S (next_transfer s) | Some _ => next_transfer s end).
Proof.
  destruct (write_read_phases ss ds data length reply rlength s) as (q & P & _).
  pose proof (write_read_names ss ds data length reply rlength s) as N.
  pose proof (write_read_spec ss ds data length reply rlength s) as Sp.
  destruct (entered_facts reply rlength s) as (Et & _).
  fold (descriptor s) in Et. rewrite Et in N.
  destruct (phases_alloc_free _ _ _ P) as (F & _).
  split; [|split; [exact F|split; [|split; [exact N|]]]].
  - rewrite write_read_unfold in P |- *. cbn [fst] in *.
    rewrite phases_app, entry_phases in P.
    destruct (phases_alloc_free _ _ _ P) as (_ & A & _).
    rewrite count_app, A by discriminate.
    unfold entry_events. destruct (transfer s); reflexivity.
  - intros Hn. rewrite write_read_unfold. cbn [fst].
    unfold entry_events. rewrite Hn. simpl. eauto.
  - intros ret s' ss' ds' R. rewrite R in Sp. cbn [run_post] in Sp.
    destruct Sp as (_ & (T & NT & _) & _). rewrite T, NT, Et.
    split; [reflexivity|]. unfold entered. destruct (transfer s); reflexivity.
Qed.

Lemma hid_init_transfer vid pid a s :
  transfer (match hid_init vid pid a s with
            | InitReturn _ s' | InitExit _ s' => s'
            end) = transfer s /\
  next_transfer (match hid_init vid pid a s with
                 | InitReturn _ s' | InitExit _ s' => s'
                 end) = next_transfer s.
Proof.
  unfold hid_init. destruct (init_error a <? 0); [auto|].
  destruct (device_found a); simpl; [|auto].
  destruct (claim_error a <? 0); auto.
Qed.

Lemma run_descriptor (calls : list call) :
  forall s, forallb (fun c => negb (is_close c)) calls = true ->
    count is_free (fst (run calls s)) = 0%nat /\
    (count is_alloc (fst (run calls s)) <=
       match transfer s with None => 1 | Some _ => 0 end)%nat /\
    Forall (names (descriptor s)) (fst (run calls s)).
Proof.
  induction calls as [|c calls IH]; intros s Hc.
  - simpl. unfold count. simpl. repeat split; auto. destruct (transfer s); lia.
  - cbn [forallb] in Hc. apply andb_true_iff in Hc. destruct Hc as (Hc1 & Hc2).
    destruct c as [vid pid a|ss ds data nbytes rdata rlength|]; [| |discriminate];
      cbn [run].
    + destruct (hid_init_transfer vid pid a s) as (T & NT).
      destruct (hid_init vid pid a s) as [ret s'|site s'].
      * destruct (IH s' Hc2) as (I1 & I2 & I3).
        unfold descriptor in *. rewrite T, NT in *. auto.
      * unfold count. simpl. repeat split; auto. destruct (transfer s); lia.
    + destruct (write_read_descriptor ss ds data nbytes rdata rlength s)
        as (A & F & _ & N & R).
      rewrite <- hid_send_recv_fst in A, F, N.
      pose proof (hid_send_recv_snd ss ds data nbytes rdata rlength s) as Hsnd.
      destruct (hid_send_recv ss ds data nbytes rdata rlength s) as [evs r].
      cbn [fst snd] in *.
      destruct r as [s' ss' ds'|site s'|s'|]; cbn [fst];
        try (split; [exact F|split; [rewrite A; destruct (transfer s); lia|exact N]]).
      destruct (snd (write_read ss ds data nbytes rdata rlength s))
        as [ret s1 ss1 ds1|s1|]; try discriminate.
      destruct (R ret s1 ss1 ds1 eq_refl) as (T & NT).
      destruct (ret <? 0); [discriminate|].
      destruct (negb (to_unsigned ret =? rlength)); [discriminate|].
      injection Hsnd as -> -> ->.
      destruct (IH s1 Hc2) as (I1 & I2 & I3).
      destruct (run calls s1) as [evs' p]. cbn [fst] in *.
      rewrite !count_app, F, I1, A.
      assert (D : descriptor s1 = descriptor s).
      { unfold descriptor at 1. rewrite T. unfold descriptor.
        destruct (transfer s); reflexivity. }
      split; [reflexivity|]. split.
      * rewrite T in I2. unfold descriptor in I2.
        destruct (transfer s); simpl in *; lia.
      * apply Forall_app. split; [exact N|]. rewrite <- D. exact I3.
Qed.

Lemma run_frees (calls : list call) :
  forall s, (count is_free (fst (run calls s)) <= length (filter is_close calls))%nat.
Proof.
  induction calls as [|c calls IH]; intros s.
  - unfold count. simpl. lia.
  - destruct c as [vid pid a|ss ds data nbytes rdata rlength|]; cbn [run filter is_close].
    + destruct (hid_init vid pid a s) as [ret s'|site s'];
        [apply IH|unfold count; simpl; lia].
    + destruct (write_read_descriptor ss ds data nbytes rdata rlength s)
        as (_ & F & _).
      rewrite <- hid_send_recv_fst in F.
      destruct (hid_send_recv ss ds data nbytes rdata rlength s) as [evs r].
      cbn [fst] in F.
      destruct r as [s' ss' ds'|site s'|s'|]; cbn [fst]; try lia.
      specialize (IH s'). destruct (run calls s') as [evs' p]. cbn [fst] in *.
      rewrite count_app. lia.
    + pose proof (hid_close_events s) as He.
      destruct (hid_close s) as [evs s']. cbn [fst] in He.
      specialize (IH s'). destruct (run calls s') as [evs' p]. cbn [fst length] in *.
      rewrite count_app, He.
      destruct (ctx s); [destruct (transfer s)|]; unfold count at 1; simpl; lia.
Qed.

(** With no receive in flight and the slot at [0], the loop consumes every
    dispatch whose result is not fatal. *)
Lemma wait_loop_pending (ds : list dispatch) :
  forall s, nbytes_received s = 0 -> t_submitted s = false ->
    Forall (fun d => fatal_dispatch (d_result d) = false) ds ->
    snd (wait_loop ds s) = WaitPending s /\
    length (fst (wait_loop ds s)) = length ds.
Proof.
  induction ds as [|d ds IH]; intros s H0 Hs Hf.
  - simpl. rewrite H0. simpl. auto.
  - inversion Hf as [|? ? Hd Hds]. subst.
    rewrite (wait_loop_cons _ _ _ H0). cbv zeta.
    rewrite (handle_events_idle _ _ (delivered_unsubmitted d s Hs)), Hd.
    cbn [fst snd length]. destruct (IH s H0 Hs Hds) as (I1 & I2).
    rewrite I1, I2. auto.
Qed.

(** ** What the transport stores at transfer->buffer *)

Lemma to_int_small (x : Z) : 0 <= x < 2 ^ 31 -> to_int x = x.
Proof.
  intros H. unfold to_int. rewrite Z.mod_small; lia.
Qed.

Lemma delivered_completed (d : dispatch) (s : state) st bytes :
  delivered d s = Some (st, bytes) ->
  t_submitted s = true /\
  exists c, d_completion d = Some c /\ st = c_status c /\ bytes = received c s.
Proof.
  unfold delivered. destruct (d_completion d) as [c|]; [|discriminate].
  destruct (t_submitted s); [|discriminate].
  intros [= <- <-]. split; [reflexivity|]. exists c. auto.
Qed.

Lemma received_length (c : completion) (s : state) :
  (length (received c s) <= Z.to_nat (t_length s))%nat.
Proof. unfold received. rewrite length_firstn. lia. Qed.

Lemma handle_events_length (d : dispatch) (s s1 : state) :
  libusb_handle_events d s = Some s1 -> t_length s1 = t_length s.
Proof.
  intros E. destruct (delivered d s) as [[st bytes]|] eqn:Hd.
  - destruct (handle_events_delivered _ _ _ _ _ Hd E) as (_ & _ & F & _). apply F.
  - rewrite (handle_events_idle _ _ Hd) in E. injection E as <-. reflexivity.
Qed.

Lemma wait_loop_step (d : dispatch) (ds : list dispatch) (s : state) :
  wait_loop (d :: ds) s =
  if nbytes_received s =? 0 then
    match libusb_handle_events d s with
    | None => ([EvDispatch (delivered d s) (d_result d)], WaitUndefined)
    | Some s1 =>
        if fatal_dispatch (d_result d)
        then ([EvDispatch (delivered d s) (d_result d)],
              WaitFatal (d_result d) s1 ds)
        else (EvDispatch (delivered d s) (d_result d) :: fst (wait_loop ds s1),
              snd (wait_loop ds s1))
    end
  else ([], WaitDone s (d :: ds)).
Proof.
  destruct (nbytes_received s =? 0) eqn:E.
  - apply Z.eqb_eq in E. apply (wait_loop_cons d ds s E).
  - apply Z.eqb_neq in E. apply (wait_loop_nonzero (d :: ds) s E).
Qed.

Lemma read_callback_buffer st buf n (s s1 : state) :
  read_callback st buf n s = Some s1 ->
  t_buffer s1 = t_buffer s /\ t_length s1 = t_length s.
Proof.
  destruct st; simpl; try (intros [= <-]; auto).
  destruct ((0 <=? n) && (n <=? RECEIVE_BUF_SIZE)); [|discriminate].
  intros [= <-]. auto.
Qed.

Lemma memcpy_rest (dst bytes : list byte) (L : nat) :
  (length bytes <= L)%nat ->
  skipn L (memcpy dst bytes (length bytes)) = skipn L dst.
Proof.
  intros H. unfold memcpy. rewrite firstn_all.
  rewrite skipn_app, skipn_all2 by exact H. simpl.
  rewrite skipn_skipn. f_equal. lia.
Qed.

Lemma rest_kept_refl (s : state) : rest_kept s s.
Proof. split; reflexivity. Qed.

Lemma rest_kept_trans (s1 s2 s3 : state) :
  rest_kept s1 s2 -> rest_kept s2 s3 -> rest_kept s1 s3.
Proof.
  unfold rest_kept. intros (a & b) (a' & b'). rewrite a in b'.
  split; congruence.
Qed.

Lemma handle_events_rest (d : dispatch) (s s1 : state) :
  libusb_handle_events d s = Some s1 -> rest_kept s s1.
Proof.
  intros E. unfold libusb_handle_events in E.
  destruct (delivered d s) as [[st bytes]|] eqn:Hd.
  - destruct (delivered_completed _ _ _ _ Hd) as (_ & c & _ & _ & Hb).
    pose proof (received_length c s) as Hl. rewrite <- Hb in Hl.
    destruct (read_callback_buffer _ _ _ _ _ E) as (B & L).
    unfold rest_kept. rewrite B, L. simpl. split; [reflexivity|].
    apply memcpy_rest. exact Hl.
  - injection E as <-. apply rest_kept_refl.
Qed.

Lemma wait_loop_rest (ds : list dispatch) :
  forall s,
    match snd (wait_loop ds s) with
    | WaitDone s' _ | WaitFatal _ s' _ | WaitPending s' => rest_kept s s'
    | WaitUndefined => True
    end.
Proof.
  induction ds as [|d ds IH]; intros s.
  - simpl. destruct (nbytes_received s =? 0); apply rest_kept_refl.
  - rewrite wait_loop_step.
    destruct (nbytes_received s =? 0); [|apply rest_kept_refl].
    destruct (libusb_handle_events d s) as [s1|] eqn:E; [|exact I].
    pose proof (handle_events_rest _ _ _ E) as T.
    destruct (fatal_dispatch (d_result d)); [exact T|]. cbn [snd].
    specialize (IH s1).
    destruct (snd (wait_loop ds s1)); try exact I;
      eapply rest_kept_trans; eauto.
Qed.

Lemma armed_rest (s : state) : rest_kept s (armed s).
Proof.
  unfold armed, libusb_submit_transfer. simpl.
  destruct (t_submitted s); split; reflexivity.
Qed.

(** Whatever the number of attempts, a call leaves the array past
    [transfer->length] as it found it. *)
Lemma again_rest (data : list byte) (ss : list Z) :
  forall ds s,
    match snd (again ss ds data s) with
    | WrReturn _ s' _ _ | WrPending s' => rest_kept s s'
    | WrUndefined => True
    end.
Proof.
  induction ss as [|result ss IH]; intros ds s.
  - rewrite again_nil. apply armed_rest.
  - rewrite again_cons. cbv zeta.
    pose proof (armed_rest s) as A.
    destruct (result <? 0); [exact A|].
    pose proof (wait_loop_rest ds (armed s)) as W.
    destruct (snd (wait_loop ds (armed s))) as [s3 ds'|r s3 ds'|s3|];
      try exact I; try (eapply rest_kept_trans; eauto; fail).
    pose proof (rest_kept_trans _ _ _ A W) as T.
    destruct (nbytes_received s3 =? LIBUSB_ERROR_TIMEOUT); [|exact T].
    cbn [snd]. specialize (IH ds' s3).
    destruct (snd (again ss ds' data s3)); try exact I;
      eapply rest_kept_trans; eauto.
Qed.

(** No delivery is longer than the length the descriptor was filled with. *)
Lemma wait_loop_clipped (ds : list dispatch) :
  forall s st bytes r,
    In (EvDispatch (Some (st, bytes)) r) (fst (wait_loop ds s)) ->
    (length bytes <= Z.to_nat (t_length s))%nat.
Proof.
  induction ds as [|d ds IH]; intros s st bytes r.
  - simpl. destruct (nbytes_received s =? 0); simpl; contradiction.
  - rewrite wait_loop_step.
    destruct (nbytes_received s =? 0); [|simpl; contradiction].
    assert (Hhd : EvDispatch (delivered d s) (d_result d) =
                  EvDispatch (Some (st, bytes)) r ->
                  (length bytes <= Z.to_nat (t_length s))%nat).
    { intros [= Hd _].
      destruct (delivered_completed _ _ _ _ Hd) as (_ & c & _ & _ & ->).
      apply received_length. }
    destruct (libusb_handle_events d s) as [s1|] eqn:E.
    + destruct (fatal_dispatch (d_result d)); cbn [fst].
      * intros [Hin|[]]. auto.
      * intros [Hin|Hin]; [auto|].
        rewrite <- (handle_events_length _ _ _ E). eapply IH; eauto.
    + cbn [fst]. intros [Hin|[]]. auto.
Qed.

Lemma again_clipped (data : list byte) (ss : list Z) :
  forall ds s st bytes r,
    In (EvDispatch (Some (st, bytes)) r) (fst (again ss ds data s)) ->
    (length bytes <= Z.to_nat (t_length s))%nat.
Proof.
  induction ss as [|result ss IH]; intros ds s st bytes r.
  - rewrite again_nil. cbn [fst]. intros [Hin|[]]. discriminate.
  - rewrite again_cons. cbv zeta.
    destruct (armed_rest s) as (A & _).
    pose proof (wait_loop_clipped ds (armed s) st bytes r) as W.
    rewrite A in W.
    pose proof (wait_loop_rest ds (armed s)) as R.
    destruct (result <? 0); cbn [fst].
    + intros [Hin|[Hin|[Hin|[]]]]; discriminate.
    + destruct (snd (wait_loop ds (armed s))) as [s3 ds'|r' s3 ds'|s3|].
      * destruct R as (R & _).
        destruct (nbytes_received s3 =? LIBUSB_ERROR_TIMEOUT); cbn [fst];
          intros [Hin|[Hin|Hin]]; try discriminate; [|auto].
        apply in_app_or in Hin. destruct Hin as [Hin|Hin]; [auto|].
        rewrite <- A, <- R. eapply IH; eauto.
      * cbn [fst]. intros [Hin|[Hin|Hin]]; try discriminate. auto.
      * cbn [fst]. intros [Hin|[Hin|Hin]]; try discriminate. auto.
      * cbn [fst]. intros [Hin|[Hin|Hin]]; try discriminate. auto.
Qed.

(** ** Submissions that libusb refuses *)

Lemma submit_answer_accepted (s : state) :
  libusb_submit_transfer_answer 0 s = libusb_submit_transfer s.
Proof.
  unfold libusb_submit_transfer_answer, libusb_submit_transfer.
  destruct (t_submitted s); reflexivity.
Qed.

(** With every submission accepted, [again_answers] is [again]. *)
Lemma again_answers_accepted (data : list byte) (ss : list Z) :
  forall ds s, again_answers [] ss ds data s = again ss ds data s.
Proof.
  induction ss as [|result ss IH]; intros ds s.
  - cbn [again_answers again hd]. rewrite submit_answer_accepted. reflexivity.
  - cbn [again_answers again hd tl]. rewrite submit_answer_accepted.
    destruct (libusb_submit_transfer (set_nbytes_received 0 s)) as [sub s2].
    destruct (result <? 0); [reflexivity|].
    destruct (wait_loop ds s2) as [evs [s3 ds'|r s3 ds'|s3|]]; try reflexivity.
    destruct (nbytes_received s3 =? LIBUSB_ERROR_TIMEOUT); [|reflexivity].
    rewrite IH. reflexivity.
Qed.

Lemma write_read_answers_accepted ss ds data length reply rlength s :
  write_read_answers [] ss ds data length reply rlength s =
  write_read ss ds data length reply rlength s.
Proof.
  unfold write_read_answers, write_read.
  destruct (transfer s); cbn [libusb_alloc_transfer];
    rewrite again_answers_accepted; reflexivity.
Qed.

(** After a refused submission the send is made with no receive in flight,
    and the loop that follows is left only by a fatal dispatch result. *)
Lemma again_answers_refused (data : list byte) (answer result : Z)
    (subs ss : list Z) (ds : list dispatch) (s : state) :
  t_submitted s = false -> answer < 0 -> 0 <= result ->
  exists evs,
    fst (again_answers (answer :: subs) (result :: ss) ds data s) =
      EvSubmit (transfer s) answer :: EvControl data false result :: evs /\
    Forall (fun e => exists r, e = EvDispatch None r) evs /\
    match snd (again_answers (answer :: subs) (result :: ss) ds data s) with
    | WrReturn ret s' _ _ => fatal_dispatch ret = true /\ t_submitted s' = false
    | WrPending s' => t_submitted s' = false
    | WrUndefined => False
    end.
Proof.
  intros Hs Ha Hr. cbn [again_answers hd tl].
  unfold libusb_submit_transfer_answer. cbn [t_submitted set_nbytes_received].
  rewrite Hs. apply Z.ltb_lt in Ha. rewrite Ha.
  apply Z.ltb_ge in Hr. rewrite Hr.
  change (transfer (set_nbytes_received 0 s)) with (transfer s).
  change (t_submitted (set_nbytes_received 0 s)) with (t_submitted s).
  rewrite Hs.
  set (s1 := set_nbytes_received 0 s).
  assert (H0 : nbytes_received s1 = 0) by reflexivity.
  assert (H1 : t_submitted s1 = false) by exact Hs.
  destruct (wait_loop_unarmed ds s1 H0 H1) as (W1 & W2).
  destruct (wait_loop_spec ds s1 H0) as (_ & _ & W3).
  destruct (wait_loop ds s1) as [evs w]. cbn [fst snd] in *.
  exists evs.
  destruct w as [s3 ds'|r s3 ds'|s3|]; try contradiction; cbn [fst snd wait_post] in *.
  - split; [reflexivity|]. split; [exact W2|]. split; [exact W1|]. apply W3, H1.
  - split; [reflexivity|]. split; [exact W2|]. apply W3, H1.
Qed.

(** * Properties of the engine *)

(** C1. When [hid_send_recv] returns, the last libusb call of its
    [write_read] was a dispatch that delivered a completed transfer of
    exactly [rlength] bytes.  The caller's reply array, which held [rdata]
    when the call was made, then holds those bytes followed by what [rdata]
    had from index [rlength] on, and the same bytes are at the start of
    [receive_buf], where [read_callback] recorded them. *)
Theorem hid_send_recv_success ss ds data nbytes rdata rlength s s' ss' ds' :
  snd (hid_send_recv ss ds data nbytes rdata rlength s) = HidReturn s' ss' ds' ->
  exists pre bytes r,
    fst (hid_send_recv ss ds data nbytes rdata rlength s) =
      pre ++ [EvDispatch (Some (LIBUSB_TRANSFER_COMPLETED, bytes)) r] /\
    Z.of_nat (length bytes) = rlength /\
    t_buffer s' = bytes ++ skipn (length bytes) rdata /\
    firstn (length bytes) (receive_buf s') = bytes.
Proof.
  rewrite hid_send_recv_fst, hid_send_recv_snd.
  pose proof (write_read_spec ss ds data nbytes rdata rlength s) as H.
  assert (T : match snd (write_read ss ds data nbytes rdata rlength s) with
              | WrReturn _ s1 _ _ | WrPending s1 =>
                  rest_kept (entered rdata rlength s) s1
              | WrUndefined => True
              end).
  { rewrite write_read_unfold. cbn [snd]. apply again_rest. }
  destruct (snd (write_read ss ds data nbytes rdata rlength s))
    as [ret s1 ss1 ds1|s1|]; try discriminate.
  cbn [run_post] in H. destruct H as (_ & _ & _ & _ & H).
  destruct (ret <? 0) eqn:Eneg; [discriminate|]. apply Z.ltb_ge in Eneg.
  destruct (to_unsigned ret =? rlength) eqn:Elen; [|discriminate].
  simpl. intros [= -> -> ->].
  destruct (H Eneg) as (_ & pre & bytes & r & E1 & _ & E2 & E3 & E4 & E5).
  apply Z.eqb_eq in Elen. rewrite to_unsigned_small in Elen by lia.
  exists pre, bytes, r. split; [exact E1|]. split; [lia|]. split; [|exact E4].
  destruct T as (_ & T).
  destruct (entered_facts rdata rlength s) as (_ & Eb & El & _).
  rewrite El, Eb in T.
  rewrite to_int_small in T by (unfold RECEIVE_BUF_SIZE in E5; lia).
  rewrite <- Elen, E2, Nat2Z.id in T.
  rewrite <- (firstn_skipn (length bytes) (t_buffer s')) at 1.
  rewrite E3, T. reflexivity.
Qed.

Lemma hid_send_recv_success_witness :
  exists pre bytes r,
    fst (hid_send_recv [2] [completes (reply8 ++ reply8)] request12 2
           (empty8 ++ [xaa; xbb]) 8 initial_state) =
      pre ++ [EvDispatch (Some (LIBUSB_TRANSFER_COMPLETED, bytes)) r] /\
    Z.of_nat (length bytes) = 8 /\
    reply8 ++ [xaa; xbb] = bytes ++ skipn (length bytes) (empty8 ++ [xaa; xbb]) /\
    firstn (length bytes)
      (reply8 ++ repeat x00 34) = bytes.
Proof.
  exact (hid_send_recv_success [2] [completes (reply8 ++ reply8)] request12 2
           (empty8 ++ [xaa; xbb]) 8 initial_state
           (mkState false false (Some 0%nat) (reply8 ++ repeat x00 34) 8
              129 (reply8 ++ [xaa; xbb]) 8 500 false 1)
           [] [] eq_refl).
Defined.

(** C2.  The code at the input where it departs from the claim: eight bytes
    are expected and the transfer completes with zero bytes.  The callback
    reports a length that differs from the expected one, but
    [read_callback] stores that length, [0], which is the value the slot
    was reset to before the submission, so the loop goes on dispatching:
    the call is still in the loop when the script ends, and whatever the
    transport does next the call never exits at the short-read site. *)
Theorem zero_byte_reply_not_reported :
  let run := fun ds =>
    hid_send_recv [2] (completes [] :: ds) request12 2 empty8 8 initial_state in
  fst (run [returns 0]) =
    [EvAlloc 0; EvFill (Some 0%nat) 129 8 500; EvSubmit (Some 0%nat) 0;
     EvControl request12 true 2;
     EvDispatch (Some (LIBUSB_TRANSFER_COMPLETED, [])) 0;
     EvDispatch None 0] /\
  Z.of_nat (length (@nil byte)) <> 8 /\
  (exists s', snd (run [returns 0]) = HidPending s') /\
  (forall ds n m s', snd (run ds) <> HidExit (ExitShortRead n m) s').
Proof.
  cbv zeta. split; [reflexivity|]. split; [simpl; lia|].
  split; [eexists; reflexivity|].
  intros ds n m s'. rewrite hid_send_recv_snd, write_read_unfold. cbn [snd].
  set (s0 := entered empty8 8 initial_state).
  set (data := sent_bytes request12 2).
  assert (Hin : In (EvDispatch (Some (LIBUSB_TRANSFER_COMPLETED, [])) 0)
                   (fst (again [2] (completes [] :: ds) data s0))).
  { rewrite again_cons. cbv zeta.
    replace (2 <? 0) with false by reflexivity.
    rewrite wait_loop_cons by apply armed_facts. cbv zeta.
    replace (libusb_handle_events (completes []) (armed s0))
      with (Some (set_t_submitted false (armed s0))) by reflexivity.
    replace (fatal_dispatch (d_result (completes []))) with false by reflexivity.
    cbn [fst snd].
    destruct (snd (wait_loop ds (set_t_submitted false (armed s0)))) as [s3 ds'| | |];
      [destruct (nbytes_received s3 =? LIBUSB_ERROR_TIMEOUT)|..];
      cbn [fst]; right; right; left; reflexivity. }
  pose proof (again_empty_completion data [2] (completes [] :: ds) s0 0 Hin) as H.
  destruct (snd (again [2] (completes [] :: ds) data s0)) as [ret s1 ss1 ds1|s1|];
    try discriminate.
  apply Z.ltb_lt in H. rewrite H. discriminate.
Qed.

(** C3.  In the trace of every call of [write_read]: each submission is
    immediately followed by one control-transfer send (unless the script
    ends while that send is being made), each send is immediately preceded
    by a submission, and each dispatch after which the loop reads a timeout
    in the slot ([is_retry]: the callback stored [LIBUSB_ERROR_TIMEOUT] and
    the dispatch call did not return a fatal code, which would be returned
    first) is immediately followed by a new submission (hence by a new
    send) before any further dispatch.  When the call returns, the numbers
    of submissions and of sends are both one more than the number of such
    timeouts.
    The number of retries has no bound: for every [k] the script with [k]
    timeouts followed by the reply makes [write_read] retry [k] times,
    submit and send [k + 1] times, and return the eight bytes. *)
Theorem write_read_attempts :
  (forall ss ds data length reply rlength s pre e post,
      fst (write_read ss ds data length reply rlength s) = pre ++ e :: post ->
      (is_submit e = true ->
         (exists c post', post = c :: post' /\ is_control c = true) \/
         (post = [] /\
          exists s', snd (write_read ss ds data length reply rlength s) =
                     WrPending s')) /\
      (is_control e = true ->
         exists pre' b, pre = pre' ++ [b] /\ is_submit b = true) /\
      (is_retry e = true ->
         exists b post', post = b :: post' /\ is_submit b = true)) /\
  (forall ss ds data length reply rlength s ret s' ss' ds',
      snd (write_read ss ds data length reply rlength s) =
        WrReturn ret s' ss' ds' ->
      count is_submit (fst (write_read ss ds data length reply rlength s)) =
        S (count is_retry (fst (write_read ss ds data length reply rlength s))) /\
      count is_control (fst (write_read ss ds data length reply rlength s)) =
        S (count is_retry (fst (write_read ss ds data length reply rlength s)))) /\
  (forall k,
      let run := write_read (repeat 0 (S k)) (timeouts_then_reply k)
                   request12 2 empty8 8 initial_state in
      (exists s', snd run = WrReturn 8 s' [] []) /\
      count is_retry (fst run) = k /\
      count is_submit (fst run) = S k /\
      count is_control (fst run) = S k).
Proof.
  split; [|split].
  - intros ss ds data length reply rlength s pre e post E.
    destruct (write_read_phases ss ds data length reply rlength s) as (q & P & R).
    rewrite E in P.
    destruct (phases_split _ _ _ _ _ P) as (p1 & p2 & P1 & S & P2).
    split; [|split].
    + intros He. destruct (step_submit _ _ _ He S) as (_ & ->).
      destruct post as [|c post'].
      * right. split; [reflexivity|]. simpl in P2. injection P2 as <-.
        destruct (snd (write_read ss ds data length reply rlength s));
          try discriminate. eauto.
      * left. exists c, post'. split; [reflexivity|].
        cbn [phases] in P2. destruct (step Armed c) as [p3|] eqn:S3; [|discriminate].
        apply (step_from_armed _ _ S3).
    + intros He. destruct (step_control _ _ _ He S) as (-> & _).
      apply phases_into_armed. exact P1.
    + intros He. rewrite (step_retry _ _ _ S) in He.
      assert (p2 = Idle) as -> by (destruct p1, p2; try discriminate; reflexivity).
      destruct post as [|b post'].
      * simpl in P2. injection P2 as <-.
        destruct (snd (write_read ss ds data length reply rlength s));
          try discriminate; destruct R; discriminate.
      * exists b, post'. split; [reflexivity|].
        cbn [phases] in P2. destruct (step Idle b) as [p3|] eqn:S3; [|discriminate].
        apply (step_from_idle _ _ S3).
  - intros ss ds data length reply rlength s ret s' ss' ds' E.
    destruct (write_read_phases ss ds data length reply rlength s) as (q & P & R).
    rewrite E in R. subst q.
    destruct (phases_counts _ _ P) as (C1 & C2). simpl in C1, C2. lia.
  - intros k. cbv zeta.
    assert (Hl : t_length (entered empty8 8 initial_state) = 8) by reflexivity.
    destruct (again_timeouts (sent_bytes request12 2) k _ Hl) as ((s' & R) & C).
    assert (Hret : snd (write_read (repeat 0 (S k)) (timeouts_then_reply k)
                          request12 2 empty8 8 initial_state) = WrReturn 8 s' [] []).
    { rewrite write_read_unfold. exact R. }
    assert (Hc : count is_retry (fst (write_read (repeat 0 (S k)) (timeouts_then_reply k)
                          request12 2 empty8 8 initial_state)) = k).
    { rewrite write_read_unfold. cbn [fst]. rewrite count_app, C. reflexivity. }
    destruct (write_read_phases (repeat 0 (S k)) (timeouts_then_reply k)
                request12 2 empty8 8 initial_state) as (q & P & Q).
    rewrite Hret in Q. subst q.
    destruct (phases_counts _ _ P) as (C1 & C2).
    cbn [due_submit due_control] in C1, C2. rewrite Hc in C1, C2.
    split; [eauto|]. split; [exact Hc|]. lia.
Qed.

Lemma write_read_attempts_witness :
  let run := write_read [2; 2]
               [ends_with LIBUSB_TRANSFER_TIMED_OUT; completes reply8]
               request12 2 empty8 8 initial_state in
  count is_submit (fst run) = 2%nat /\ count is_control (fst run) = 2%nat /\
  exists b post',
    [EvSubmit (Some 0%nat) 0; EvControl request12 true 2;
     EvDispatch (Some (LIBUSB_TRANSFER_COMPLETED, reply8)) 0] = b :: post' /\
    is_submit b = true.
Proof.
  cbv zeta.
  destruct write_read_attempts as (H1 & H2 & _).
  split; [|split].
  - exact (proj1 (H2 [2; 2] [ends_with LIBUSB_TRANSFER_TIMED_OUT; completes reply8]
                    request12 2 empty8 8 initial_state 8
                    (mkState false false (Some 0%nat) (reply8 ++ repeat x00 34) 8
                       129 reply8 8 500 false 1) [] [] eq_refl)).
  - exact (proj2 (H2 [2; 2] [ends_with LIBUSB_TRANSFER_TIMED_OUT; completes reply8]
                    request12 2 empty8 8 initial_state 8
                    (mkState false false (Some 0%nat) (reply8 ++ repeat x00 34) 8
                       129 reply8 8 500 false 1) [] [] eq_refl)).
  - exact (proj2 (proj2
             (H1 [2; 2] [ends_with LIBUSB_TRANSFER_TIMED_OUT; completes reply8]
                 request12 2 empty8 8 initial_state
                 [EvAlloc 0; EvFill (Some 0%nat) 129 8 500;
                  EvSubmit (Some 0%nat) 0; EvControl request12 true 2]
                 (EvDispatch (Some (LIBUSB_TRANSFER_TIMED_OUT, [])) 0)
                 [EvSubmit (Some 0%nat) 0; EvControl request12 true 2;
                  EvDispatch (Some (LIBUSB_TRANSFER_COMPLETED, reply8)) 0]
                 eq_refl)) eq_refl).
Defined.

(** C4.  The test of the dispatch result lets through exactly the results
    that are not negative and the four transient codes.  In the loop, a
    dispatch whose result passes the test is followed by the next round of
    the loop; one whose result does not pass ends the loop at once with that
    result.  In [write_read], a dispatch with such a result is the last
    libusb call of the call, and its result is the value returned (provided
    the delivery, if any, did not overrun [receive_buf]). *)
Theorem dispatch_result_handling :
  (forall r,
      fatal_dispatch r = true <->
      r < 0 /\ r <> LIBUSB_ERROR_BUSY /\ r <> LIBUSB_ERROR_TIMEOUT /\
      r <> LIBUSB_ERROR_OVERFLOW /\ r <> LIBUSB_ERROR_INTERRUPTED) /\
  (forall d ds s s1,
      nbytes_received s = 0 ->
      libusb_handle_events d s = Some s1 ->
      (fatal_dispatch (d_result d) = false ->
       wait_loop (d :: ds) s =
         (EvDispatch (delivered d s) (d_result d) :: fst (wait_loop ds s1),
          snd (wait_loop ds s1))) /\
      (fatal_dispatch (d_result d) = true ->
       wait_loop (d :: ds) s =
         ([EvDispatch (delivered d s) (d_result d)],
          WaitFatal (d_result d) s1 ds))) /\
  (forall ss ds data length reply rlength s pre dl r post,
      fst (write_read ss ds data length reply rlength s) =
        pre ++ EvDispatch dl r :: post ->
      fatal_dispatch r = true ->
      outcome_of dl <= RECEIVE_BUF_SIZE ->
      post = [] /\
      exists s' ss' ds',
        snd (write_read ss ds data length reply rlength s) =
        WrReturn r s' ss' ds').
Proof.
  split; [|split].
  - intros r. unfold fatal_dispatch. destruct (r <? 0) eqn:E.
    + apply Z.ltb_lt in E. rewrite !andb_true_iff, !negb_true_iff, !Z.eqb_neq.
      tauto.
    + apply Z.ltb_ge in E. split; [discriminate|]. lia.
  - intros d ds s s1 H0 Hh. rewrite (wait_loop_cons _ _ _ H0). cbv zeta.
    rewrite Hh. split; intros ->; reflexivity.
  - intros ss ds data length reply rlength s pre dl r post E Hf Hfit.
    destruct (terminal_dispatch_last _ _ _ _ _ _ _ _ _ _ _ E (or_introl Hf))
      as (Hpost & Hres).
    split; [exact Hpost|].
    destruct (snd (write_read ss ds data length reply rlength s))
      as [ret s' ss' ds'|s'|].
    + destruct Hres as (-> & _). rewrite Hf. eauto.
    + contradiction.
    + destruct Hres as (bytes & -> & Hbig). simpl in Hfit. lia.
Qed.

Lemma dispatch_result_handling_witness :
  exists s' ss' ds',
    snd (write_read [2] [returns LIBUSB_ERROR_BUSY; returns (-99); completes reply8]
           request12 2 empty8 8 initial_state) =
    WrReturn (-99) s' ss' ds'.
Proof.
  destruct dispatch_result_handling as (_ & _ & H).
  destruct (H [2] [returns LIBUSB_ERROR_BUSY; returns (-99); completes reply8]
              request12 2 empty8 8 initial_state
              [EvAlloc 0; EvFill (Some 0%nat) 129 8 500; EvSubmit (Some 0%nat) 0;
               EvControl request12 true 2; EvDispatch None LIBUSB_ERROR_BUSY]
              None (-99) [] eq_refl eq_refl) as (_ & E).
  - unfold RECEIVE_BUF_SIZE. simpl. lia.
  - exact E.
Defined.

(** C5.  In every call of [hid_send_recv] the number of cancellations equals
    the number of failed sends and is at most one: a call in which no send
    fails cancels nothing, however it ends.  A failed send is immediately
    followed by exactly one cancellation, of the descriptor submitted just
    before the send; nothing follows, [write_read] returns [-1] and
    [hid_send_recv] exits. *)
Theorem cancel_only_after_failed_send ss ds data nbytes rdata rlength s :
  (count is_cancel (fst (hid_send_recv ss ds data nbytes rdata rlength s)) =
     count is_failed_send (fst (hid_send_recv ss ds data nbytes rdata rlength s)) /\
   (count is_cancel (fst (hid_send_recv ss ds data nbytes rdata rlength s)) <= 1)%nat) /\
  (forall pre e post,
      fst (hid_send_recv ss ds data nbytes rdata rlength s) = pre ++ e :: post ->
      is_failed_send e = true ->
      (exists pre' id sub, pre = pre' ++ [EvSubmit id sub] /\
                           post = [EvCancel id]) /\
      (exists s' ss' ds',
          snd (write_read ss ds data nbytes rdata rlength s) =
          WrReturn (-1) s' ss' ds') /\
      exists s', snd (hid_send_recv ss ds data nbytes rdata rlength s) =
                 HidExit (ExitWriteRead (-1)) s').
Proof.
  rewrite hid_send_recv_fst, hid_send_recv_snd. split.
  - destruct (write_read_phases ss ds data nbytes rdata rlength s) as (q & P & R).
    assert (Hq : q <> Failed).
    { destruct (snd (write_read ss ds data nbytes rdata rlength s));
        try (subst q; discriminate). destruct R; subst q; discriminate. }
    destruct (phases_cancel _ _ _ P Hq) as (C1 & C2). rewrite C1. split; lia.
  - intros pre e post E He.
    destruct (failed_send_last _ _ _ _ _ _ _ _ _ _ E He)
      as (c & -> & Hc & s' & ss' & ds' & R).
    pose proof (write_read_names ss ds data nbytes rdata rlength s) as N.
    rewrite E in N.
    destruct (write_read_phases ss ds data nbytes rdata rlength s) as (q & P & _).
    rewrite E in P.
    destruct (phases_split _ _ _ _ _ P) as (p1 & p2 & P1 & S & _).
    assert (Hctl : is_control e = true) by (destruct e; try discriminate; reflexivity).
    destruct (step_control _ _ _ Hctl S) as (-> & _).
    destruct (phases_into_armed _ P1) as (pre' & b & -> & Hb).
    split; [|split].
    + destruct b as [| |id sub| | | |]; try discriminate.
      destruct c as [| | | |id'| |]; try discriminate.
      exists pre', id, sub. split; [reflexivity|].
      rewrite Forall_app in N. destruct N as (N1 & N2).
      rewrite Forall_app in N1. destruct N1 as (_ & N1).
      inversion N1 as [|? ? Nb _]. inversion N2 as [|? ? _ N3].
      inversion N3 as [|? ? Nc _]. simpl in Nb, Nc. congruence.
    + eauto.
    + rewrite R. simpl. eauto.
Qed.

Lemma cancel_only_after_failed_send_witness :
  exists s',
    snd (hid_send_recv [-3] [completes reply8] request12 2 empty8 8 initial_state) =
    HidExit (ExitWriteRead (-1)) s'.
Proof.
  exact (proj2 (proj2 (proj2 (cancel_only_after_failed_send [-3] [completes reply8]
                                request12 2 empty8 8 initial_state)
                         [EvAlloc 0; EvFill (Some 0%nat) 129 8 500;
                          EvSubmit (Some 0%nat) 0]
                         (EvControl request12 true (-3))
                         [EvCancel (Some 0%nat)] eq_refl eq_refl))).
Defined.

(** C6, counterexample.  The callback records that the device is gone, in
    a call of [libusb_handle_events] that itself returns the fatal code
    [-99]: [write_read] returns [-99], the result of the dispatch, and not
    [LIBUSB_ERROR_NO_DEVICE], the error that corresponds to the recorded
    outcome. *)
Lemma fatal_outcome_counterexample :
  let d := mkDispatch (Some (mkCompletion LIBUSB_TRANSFER_NO_DEVICE [])) (-99) in
  fst (write_read [2] [d] request12 2 empty8 8 initial_state) =
    [EvAlloc 0; EvFill (Some 0%nat) 129 8 500; EvSubmit (Some 0%nat) 0;
     EvControl request12 true 2;
     EvDispatch (Some (LIBUSB_TRANSFER_NO_DEVICE, [])) (-99)] /\
  (exists s',
      snd (write_read [2] [d] request12 2 empty8 8 initial_state) =
        WrReturn (-99) s' [] [] /\
      nbytes_received s' = LIBUSB_ERROR_NO_DEVICE) /\
  -99 <> LIBUSB_ERROR_NO_DEVICE /\
  exists s',
    snd (hid_send_recv [2] [d] request12 2 empty8 8 initial_state) =
      HidExit (ExitWriteRead (-99)) s'.
Proof.
  cbv zeta. split; [reflexivity|].
  split; [eexists; split; reflexivity|].
  split; [discriminate|]. eexists. reflexivity.
Qed.

(** C6, amended.  When [read_callback] is run with a status other than
    "completed" and "timed out", the dispatch that ran it is the last libusb
    call of [write_read]: no submission, no send and no further dispatch
    follows.  [write_read] returns [LIBUSB_ERROR_INTERRUPTED] for a
    cancelled transfer, [LIBUSB_ERROR_NO_DEVICE] for a vanished device and
    [LIBUSB_ERROR_IO] for the other statuses, unless that same dispatch call
    returned a fatal code, which is then returned instead; [hid_send_recv]
    exits with the value returned. *)
Theorem fatal_outcome_ends_call
    ss ds data nbytes rdata rlength s pre st bytes r post :
  fst (hid_send_recv ss ds data nbytes rdata rlength s) =
    pre ++ EvDispatch (Some (st, bytes)) r :: post ->
  st <> LIBUSB_TRANSFER_COMPLETED ->
  st <> LIBUSB_TRANSFER_TIMED_OUT ->
  let code := match st with
              | LIBUSB_TRANSFER_CANCELLED => LIBUSB_ERROR_INTERRUPTED
              | LIBUSB_TRANSFER_NO_DEVICE => LIBUSB_ERROR_NO_DEVICE
              | _ => LIBUSB_ERROR_IO
              end in
  let ret := if fatal_dispatch r then r else code in
  post = [] /\
  (exists s' ss' ds',
      snd (write_read ss ds data nbytes rdata rlength s) =
      WrReturn ret s' ss' ds') /\
  exists s', snd (hid_send_recv ss ds data nbytes rdata rlength s) =
             HidExit (ExitWriteRead ret) s'.
Proof.
  intros E H1 H2 code ret. rewrite hid_send_recv_fst in E.
  rewrite hid_send_recv_snd.
  assert (Hcode : outcome_of (Some (st, bytes)) = code).
  { destruct st; try reflexivity; contradiction. }
  assert (Hneg : code < 0).
  { unfold code, LIBUSB_ERROR_INTERRUPTED, LIBUSB_ERROR_NO_DEVICE, LIBUSB_ERROR_IO.
    destruct st; lia. }
  assert (Hnt : code <> LIBUSB_ERROR_TIMEOUT).
  { unfold code, LIBUSB_ERROR_INTERRUPTED, LIBUSB_ERROR_NO_DEVICE, LIBUSB_ERROR_IO,
      LIBUSB_ERROR_TIMEOUT. destruct st; lia. }
  assert (C : fatal_dispatch r = true \/
              (outcome_of (Some (st, bytes)) <> 0 /\
               outcome_of (Some (st, bytes)) <> LIBUSB_ERROR_TIMEOUT)).
  { right. rewrite Hcode. split; [lia|exact Hnt]. }
  destruct (terminal_dispatch_last _ _ _ _ _ _ _ _ _ _ _ E C) as (Hpost & Hres).
  split; [exact Hpost|].
  assert (Hret : ret < 0).
  { unfold ret. destruct (fatal_dispatch r) eqn:Ef; [|exact Hneg].
    apply fatal_dispatch_neg. exact Ef. }
  destruct (snd (write_read ss ds data nbytes rdata rlength s))
    as [ret' s' ss' ds'|s'|].
  - destruct Hres as (-> & _). rewrite Hcode. fold ret.
    split; [eauto|]. apply Z.ltb_lt in Hret. rewrite Hret. eauto.
  - contradiction.
  - destruct Hres as (b & [= -> _] & _). contradiction.
Qed.

Lemma fatal_outcome_ends_call_witness :
  exists s',
    snd (hid_send_recv [2; 2] [ends_with LIBUSB_TRANSFER_NO_DEVICE; completes reply8]
           request12 2 empty8 8 initial_state) =
    HidExit (ExitWriteRead LIBUSB_ERROR_NO_DEVICE) s'.
Proof.
  refine (proj2 (proj2 (fatal_outcome_ends_call [2; 2]
            [ends_with LIBUSB_TRANSFER_NO_DEVICE; completes reply8]
            request12 2 empty8 8 initial_state
            [EvAlloc 0; EvFill (Some 0%nat) 129 8 500; EvSubmit (Some 0%nat) 0;
             EvControl request12 true 2]
            LIBUSB_TRANSFER_NO_DEVICE [] 0 [] eq_refl _ _))); discriminate.
Defined.

(** C7.  The code at the input where it departs from the claim: the device
    has gone and libusb refuses the submission of the receive with
    [LIBUSB_ERROR_NO_DEVICE].  The descriptor has been filled with the
    endpoint, the caller's array, its length and the timeout, and the
    submission is made before the send, but [write_read] drops the answer
    and makes the send with no receive in flight ([EvControl] with [false]).
    The reply the device then has ready is never delivered: the call is
    still in the loop when the script ends, and whatever the transport does
    next [write_read] can only return a fatal dispatch result. *)
Theorem send_after_refused_submission :
  let call := fun ds =>
    write_read_answers [LIBUSB_ERROR_NO_DEVICE] [2] ds request12 2 empty8 8
      initial_state in
  fst (call [completes reply8; returns 0]) =
    [EvAlloc 0; EvFill (Some 0%nat) 129 8 500;
     EvSubmit (Some 0%nat) LIBUSB_ERROR_NO_DEVICE;
     EvControl request12 false 2;
     EvDispatch None 0; EvDispatch None 0] /\
  (exists s', snd (call [completes reply8; returns 0]) = WrPending s' /\
              t_submitted s' = false /\ t_buffer s' = empty8) /\
  (forall ds,
      match snd (call ds) with
      | WrReturn ret _ _ _ => fatal_dispatch ret = true
      | WrPending _ => True
      | WrUndefined => False
      end).
Proof.
  cbv zeta. split; [reflexivity|].
  split; [eexists; repeat split; reflexivity|].
  intros ds. unfold write_read_answers.
  cbn [transfer initial_state libusb_alloc_transfer].
  match goal with
  | |- context [again_answers ?subs ?ss ds ?d ?x] =>
      destruct (again_answers_refused d LIBUSB_ERROR_NO_DEVICE 2 [] [] ds x)
        as (evs & _ & _ & H); [reflexivity|reflexivity|lia|];
      destruct (again_answers subs ss ds d x) as [evs' w]
  end.
  cbn [snd] in *. destruct w; tauto.
Qed.

(** C8.  In every state the engine reaches (any sequence of calls of
    [hid_init], [hid_send_recv] and [hid_close], started with no receive in
    flight): every submission finds the descriptor not in flight, that is,
    the receive submitted before it has had its callback run, and whenever
    the process is still running no receive is in flight.  [write_read]
    returns with the receive in flight after a failed send (the cancellation
    is not awaited) and after a fatal dispatch result, but [hid_send_recv]
    ends the process on both, so no submission follows. *)
Theorem one_receive_in_flight (calls : list call) :
  forall s, t_submitted s = false ->
    forallb submit_free (fst (run calls s)) = true /\
    match snd (run calls s) with
    | Running s' => t_submitted s' = false
    | _ => True
    end.
Proof.
  induction calls as [|c calls IH]; intros s Hs.
  - simpl. auto.
  - destruct c as [vid pid a|ss ds data nbytes rdata rlength|]; cbn [run].
    + pose proof (hid_init_submitted vid pid a s) as Hi.
      destruct (hid_init vid pid a s) as [ret s'|site s'].
      * apply IH. rewrite Hi. exact Hs.
      * simpl. auto.
    + destruct (hid_send_recv_submits ss ds data nbytes rdata rlength s Hs) as (H1 & H2).
      destruct (hid_send_recv ss ds data nbytes rdata rlength s) as [evs r].
      cbn [fst snd] in H1, H2.
      destruct r as [s' ss' ds'|site s'|s'|]; try (cbn [fst snd]; auto; fail).
      destruct (IH s' (H2 s' ss' ds' eq_refl)) as (I1 & I2).
      destruct (run calls s') as [evs' p]. cbn [fst snd] in *.
      rewrite forallb_app, H1, I1. auto.
    + pose proof (hid_close_submitted s) as Hc.
      pose proof (hid_close_events s) as He.
      destruct (hid_close s) as [evs s']. cbn [fst snd] in Hc, He.
      destruct (IH s') as (I1 & I2); [rewrite Hc; exact Hs|].
      destruct (run calls s') as [evs' p]. cbn [fst snd] in *.
      rewrite forallb_app, I1. split; [|exact I2].
      rewrite He. destruct (ctx s); [destruct (transfer s)|]; reflexivity.
Qed.

Lemma one_receive_in_flight_witness :
  forallb submit_free
    (fst (run [Call_hid_init 1240 60 (mkInitAnswers 0 true false 0);
               Call_hid_send_recv [2; 2]
                 [ends_with LIBUSB_TRANSFER_TIMED_OUT; completes reply8]
                 request12 2 empty8 8;
               Call_hid_send_recv [2] [completes reply8] request12 2 empty8 8;
               Call_hid_close]
              initial_state)) = true.
Proof.
  exact (proj1 (one_receive_in_flight _ initial_state eq_refl)).
Defined.

(** C9.  A call of [write_read] allocates a descriptor exactly when
    [transfer] is NULL, as its first libusb call, and never frees one; all
    its libusb calls are on that descriptor, and on return [transfer] still
    points to it.  Hence over any sequence of calls without [hid_close],
    from the initial state, there is at most one allocation, no free, and
    every libusb call is on the one descriptor.  [hid_close] frees the
    descriptor and resets [transfer]; over any sequence of calls there are
    no more frees than calls of [hid_close]. *)
Theorem descriptor_lifetime :
  (forall ss ds data length reply rlength s,
      count is_alloc (fst (write_read ss ds data length reply rlength s)) =
        match transfer s with None => 1%nat | Some _ => 0%nat end /\
      count is_free (fst (write_read ss ds data length reply rlength s)) = 0%nat /\
      (transfer s = None ->
       exists tl, fst (write_read ss ds data length reply rlength s) =
                  EvAlloc (next_transfer s) :: tl) /\
      Forall (names (descriptor s))
             (fst (write_read ss ds data length reply rlength s)) /\
      (forall ret s' ss' ds',
          snd (write_read ss ds data length reply rlength s) =
            WrReturn ret s' ss' ds' ->
          transfer s' = descriptor s)) /\
  (forall calls,
      forallb (fun c => negb (is_close c)) calls = true ->
      count is_free (fst (run calls initial_state)) = 0%nat /\
      (count is_alloc (fst (run calls initial_state)) <= 1)%nat /\
      Forall (names (Some 0%nat)) (fst (run calls initial_state))) /\
  (forall s id,
      ctx s = true -> transfer s = Some id ->
      fst (hid_close s) = [EvFree id] /\ transfer (snd (hid_close s)) = None) /\
  (forall calls s,
      (count is_free (fst (run calls s)) <= length (filter is_close calls))%nat).
Proof.
  split; [|split; [|split]].
  - intros ss ds data length reply rlength s.
    destruct (write_read_descriptor ss ds data length reply rlength s)
      as (A & F & L & N & R).
    repeat (split; [assumption|]). intros ret s' ss' ds' E.
    apply (R ret s' ss' ds' E).
  - intros calls Hc. apply (run_descriptor calls initial_state Hc).
  - intros s id Hc Ht. unfold hid_close. rewrite Hc, Ht. simpl. auto.
  - intros calls s. apply run_frees.
Qed.

Lemma descriptor_lifetime_witness :
  let calls := [Call_hid_init 1240 60 (mkInitAnswers 0 true false 0);
                Call_hid_send_recv [2] [completes reply8] request12 2 empty8 8;
                Call_hid_send_recv [2] [completes reply8] request12 2 empty8 8] in
  count is_free (fst (run calls initial_state)) = 0%nat /\
  (count is_alloc (fst (run calls initial_state)) <= 1)%nat /\
  Forall (names (Some 0%nat)) (fst (run calls initial_state)).
Proof.
  intros calls. exact (proj1 (proj2 descriptor_lifetime) calls eq_refl).
Defined.

(** C10.  The slot [nbytes_received] is [0] when the send is issued, and the
    dispatch loop is left through its condition exactly when the slot is not
    [0]; so [write_read] never returns [0]: a value it returns that is not
    negative is strictly positive.  A completed transfer of zero bytes makes
    [read_callback] store [0]: the slot reads as before the delivery, though
    the receive is no longer in flight.  From then on nothing can be
    delivered: the loop is never left through its condition, it is still
    dispatching when the script ends or is left by a fatal dispatch result,
    and it consumes every dispatch as long as none of them is fatal. *)
Theorem zero_is_no_outcome :
  (forall s, nbytes_received (snd (libusb_submit_transfer
                                     (set_nbytes_received 0 s))) = 0) /\
  (forall ds s, nbytes_received s <> 0 -> wait_loop ds s = ([], WaitDone s ds)) /\
  (forall ds s s' ds', nbytes_received s = 0 ->
      snd (wait_loop ds s) = WaitDone s' ds' -> nbytes_received s' <> 0) /\
  (forall ss ds data length reply rlength s ret s' ss' ds',
      snd (write_read ss ds data length reply rlength s) =
        WrReturn ret s' ss' ds' ->
      ret <> 0 /\ (0 <= ret -> 0 < ret)) /\
  (forall d s,
      nbytes_received s = 0 ->
      delivered d s = Some (LIBUSB_TRANSFER_COMPLETED, []) ->
      exists s1, libusb_handle_events d s = Some s1 /\
                 nbytes_received s1 = 0 /\ t_submitted s1 = false) /\
  (forall d ds s,
      nbytes_received s = 0 ->
      delivered d s = Some (LIBUSB_TRANSFER_COMPLETED, []) ->
      match snd (wait_loop (d :: ds) s) with
      | WaitPending _ => True
      | WaitFatal r _ _ => fatal_dispatch r = true
      | _ => False
      end /\
      (Forall (fun x => fatal_dispatch (d_result x) = false) (d :: ds) ->
       (exists s', snd (wait_loop (d :: ds) s) = WaitPending s') /\
       length (fst (wait_loop (d :: ds) s)) = length (d :: ds))).
Proof.
  assert (Hz : forall d s,
      nbytes_received s = 0 ->
      delivered d s = Some (LIBUSB_TRANSFER_COMPLETED, []) ->
      exists s1, libusb_handle_events d s = Some s1 /\
                 nbytes_received s1 = 0 /\ t_submitted s1 = false).
  { intros d s H0 Hd. destruct (libusb_handle_events d s) as [s1|] eqn:E.
    - exists s1. split; [reflexivity|].
      destruct (handle_events_delivered _ _ _ _ _ Hd E) as (a & b & _). auto.
    - destruct (handle_events_undefined _ _ E) as (bytes & E1 & E2).
      rewrite Hd in E1. injection E1 as <-. simpl in E2.
      unfold RECEIVE_BUF_SIZE in E2. lia. }
  split; [|split; [|split; [|split; [|split]]]].
  - intros s. apply (armed_facts s).
  - apply wait_loop_nonzero.
  - intros ds s s' ds' H0 E.
    destruct (wait_loop_spec ds s H0) as (_ & _ & W). rewrite E in W. apply W.
  - intros ss ds data length reply rlength s ret s' ss' ds' E.
    pose proof (write_read_spec ss ds data length reply rlength s) as H.
    rewrite E in H. cbn [run_post] in H. destruct H as (_ & _ & H & _).
    split; [exact H|lia].
  - exact Hz.
  - intros d ds s H0 Hd. destruct (Hz d s H0 Hd) as (s1 & E & a & b).
    rewrite (wait_loop_cons _ _ _ H0). cbv zeta. rewrite E. split.
    + destruct (fatal_dispatch (d_result d)) eqn:Ef; cbn [fst snd]; [exact Ef|].
      apply (wait_loop_unarmed ds s1 a b).
    + intros Hf. inversion Hf as [|? ? Hf1 Hf2]. subst. rewrite Hf1.
      cbn [fst snd length]. destruct (wait_loop_pending ds s1 a b Hf2) as (I1 & I2).
      rewrite I1, I2. eauto.
Qed.

Lemma zero_is_no_outcome_witness :
  (exists s',
      snd (wait_loop [completes []; returns 0; returns LIBUSB_ERROR_TIMEOUT;
                      completes reply8]
             (entered empty8 8 (snd (libusb_submit_transfer
                                       (set_transfer (Some 0%nat) initial_state))))) =
      WaitPending s') /\
  length (fst (wait_loop [completes []; returns 0; returns LIBUSB_ERROR_TIMEOUT;
                          completes reply8]
             (entered empty8 8 (snd (libusb_submit_transfer
                                       (set_transfer (Some 0%nat) initial_state))))))
  = 4%nat.
Proof.
  destruct zero_is_no_outcome as (_ & _ & _ & _ & _ & H).
  refine (proj2 (H (completes []) [returns 0; returns LIBUSB_ERROR_TIMEOUT;
                                   completes reply8]
                   (entered empty8 8 (snd (libusb_submit_transfer
                                       (set_transfer (Some 0%nat) initial_state))))
                   eq_refl eq_refl) _).
  repeat constructor.
Defined.

(** * Further properties of the code *)

(** ** The values write_read returns *)

(** X1.  The values [write_read] returns: never [0], never one of the
    transient codes [LIBUSB_ERROR_BUSY], [LIBUSB_ERROR_TIMEOUT],
    [LIBUSB_ERROR_OVERFLOW]; a negative value is [LIBUSB_ERROR_INTERRUPTED]
    (a cancelled transfer) or a code the dispatch test treats as fatal; a
    value that is not negative is a byte count between 1 and [rlength], the
    length the descriptor was filled with. *)
Theorem write_read_return_range
    ss ds data length reply rlength s ret s' ss' ds' :
  snd (write_read ss ds data length reply rlength s) = WrReturn ret s' ss' ds' ->
  ret <> 0 /\ ret <> LIBUSB_ERROR_BUSY /\ ret <> LIBUSB_ERROR_TIMEOUT /\
  ret <> LIBUSB_ERROR_OVERFLOW /\
  (ret < 0 -> ret = LIBUSB_ERROR_INTERRUPTED \/ fatal_dispatch ret = true) /\
  (0 <= ret -> 0 < ret <= to_int rlength).
Proof.
  intros E.
  pose proof (write_read_spec ss ds data length reply rlength s) as H.
  rewrite E in H. cbn [run_post] in H.
  destruct H as (P & _ & Hnz & (pre & e & Ev & V) & Hpos).
  assert (Hfit : 0 <= ret -> 0 < ret <= to_int rlength).
  { intros Hr.
    destruct (Hpos Hr) as (_ & pre2 & bytes & r & Ev2 & _ & Hb & _).
    assert (Hin : In (EvDispatch (Some (LIBUSB_TRANSFER_COMPLETED, bytes)) r)
                     (fst (write_read ss ds data length reply rlength s))).
    { rewrite Ev2. apply in_or_app. right. left. reflexivity. }
    rewrite write_read_unfold in Hin. cbn [fst] in Hin.
    apply in_app_or in Hin. destruct Hin as [Hin|Hin].
    - destruct (entry_events_dispatch _ _ _ _ Hin).
    - apply again_clipped in Hin.
      destruct (entered_facts reply rlength s) as (_ & _ & El & _).
      rewrite El in Hin. lia. }
  rewrite Ev in P.
  destruct (phases_split _ _ _ _ _ P) as (p1 & p2 & _ & S & P2).
  simpl in P2. injection P2 as ->.
  assert (K : ret = -1 \/ fatal_dispatch ret = true \/
              exists dl, ret = outcome_of dl /\ ret <> 0 /\
                         ret <> LIBUSB_ERROR_TIMEOUT).
  { destruct e as [| | | |id|dl ret0|]; try discriminate.
    - simpl in V. injection V as <-. auto.
    - simpl in V. injection V as <-.
      destruct (step_dispatch _ _ _ _ S) as (_ & Q).
      destruct (fatal_dispatch ret0) eqn:Ef; [auto|].
      right. right. exists dl. split; [reflexivity|].
      destruct (outcome_of dl =? 0) eqn:E0; [discriminate|].
      destruct (outcome_of dl =? LIBUSB_ERROR_TIMEOUT) eqn:E1; [discriminate|].
      apply Z.eqb_neq in E0, E1. auto. }
  assert (F : forall r, fatal_dispatch r = true ->
            r < 0 /\ r <> LIBUSB_ERROR_BUSY /\ r <> LIBUSB_ERROR_TIMEOUT /\
            r <> LIBUSB_ERROR_OVERFLOW).
  { intros r. unfold fatal_dispatch. destruct (r <? 0) eqn:En; [|discriminate].
    apply Z.ltb_lt in En.
    rewrite !andb_true_iff, !negb_true_iff, !Z.eqb_neq. tauto. }
  split; [exact Hnz|].
  destruct K as [->|[K|(dl & K1 & K2 & K3)]].
  - unfold LIBUSB_ERROR_BUSY, LIBUSB_ERROR_TIMEOUT, LIBUSB_ERROR_OVERFLOW.
    repeat split; try lia. intros _. right. reflexivity.
  - destruct (F ret K) as (a & b & c & d). repeat split; auto; lia.
  - split; [|split; [exact K3|split; [|split; [|exact Hfit]]]].
    + rewrite K1. destruct dl as [[st bytes]|]; [destruct st|]; simpl;
        unfold LIBUSB_ERROR_BUSY, LIBUSB_ERROR_IO, LIBUSB_ERROR_TIMEOUT,
          LIBUSB_ERROR_INTERRUPTED, LIBUSB_ERROR_NO_DEVICE; lia.
    + rewrite K1. destruct dl as [[st bytes]|]; [destruct st|]; simpl;
        unfold LIBUSB_ERROR_OVERFLOW, LIBUSB_ERROR_IO, LIBUSB_ERROR_TIMEOUT,
          LIBUSB_ERROR_INTERRUPTED, LIBUSB_ERROR_NO_DEVICE; lia.
    + intros Hneg. rewrite K1 in *.
      destruct dl as [[st bytes]|]; [destruct st|]; simpl in *;
        try (left; reflexivity); try (right; reflexivity); lia.
Qed.

Lemma write_read_return_range_witness :
  8 <> 0 /\ (0 <= 8 -> 0 < 8 <= to_int 8).
Proof.
  destruct (write_read_return_range [2] [completes (reply8 ++ reply8)]
              request12 2 (empty8 ++ [xaa; xbb]) 8 initial_state 8
              (mkState false false (Some 0%nat) (reply8 ++ repeat x00 34) 8
                 129 (reply8 ++ [xaa; xbb]) 8 500 false 1)
              [] [] eq_refl) as (H1 & _ & _ & _ & _ & H2).
  split; assumption.
Defined.

(** X2.  [hid_send_recv] returns to its caller only when a reply of at
    least one byte is expected: a call with [rlength = 0] never returns,
    whatever the transport does. *)
Theorem hid_send_recv_needs_reply
    ss ds data nbytes rdata rlength s s' ss' ds' :
  snd (hid_send_recv ss ds data nbytes rdata rlength s) = HidReturn s' ss' ds' ->
  0 < rlength.
Proof.
  intros H.
  destruct (hid_return_inv _ _ _ _ _ _ _ _ _ _ H) as (pre & bytes & r & _ & Hb & Hw).
  pose proof (write_read_spec ss ds data nbytes rdata rlength s) as P.
  rewrite Hw in P. cbn [run_post] in P.
  destruct P as (_ & _ & Hnz & _). lia.
Qed.

Lemma hid_send_recv_needs_reply_witness : 0 < 8.
Proof.
  exact (hid_send_recv_needs_reply [2] [completes reply8] request12 2
           empty8 8 initial_state
           (mkState false false (Some 0%nat) (reply8 ++ repeat x00 34) 8
              129 reply8 8 500 false 1)
           [] [] eq_refl).
Defined.

(** ** receive_buf is large enough exactly for replies of up to 42 bytes *)

Lemma handle_events_defined (d : dispatch) (s : state) :
  t_length s <= RECEIVE_BUF_SIZE -> libusb_handle_events d s <> None.
Proof.
  intros Hl E. destruct (handle_events_undefined _ _ E) as (bytes & Hd & Hbig).
  destruct (delivered_completed _ _ _ _ Hd) as (_ & c & _ & _ & ->).
  pose proof (received_length c s). unfold RECEIVE_BUF_SIZE in *. lia.
Qed.

Lemma wait_loop_defined (ds : list dispatch) :
  forall s, t_length s <= RECEIVE_BUF_SIZE ->
    snd (wait_loop ds s) <> WaitUndefined.
Proof.
  induction ds as [|d ds IH]; intros s Hl.
  - simpl. destruct (nbytes_received s =? 0); discriminate.
  - rewrite wait_loop_step. destruct (nbytes_received s =? 0); [|discriminate].
    destruct (libusb_handle_events d s) as [s1|] eqn:E.
    + destruct (fatal_dispatch (d_result d)); [discriminate|]. cbn [snd].
      apply IH. rewrite (handle_events_length _ _ _ E). exact Hl.
    + exfalso. exact (handle_events_defined d s Hl E).
Qed.

Lemma again_defined (data : list byte) (ss : list Z) :
  forall ds s, t_length s <= RECEIVE_BUF_SIZE ->
    snd (again ss ds data s) <> WrUndefined.
Proof.
  induction ss as [|result ss IH]; intros ds s Hl.
  - rewrite again_nil. discriminate.
  - rewrite again_cons. cbv zeta.
    destruct (armed_facts s) as (A0 & A1 & (_ & _ & _ & _ & A2)).
    destruct (result <? 0); [discriminate|].
    assert (Hl' : t_length (armed s) <= RECEIVE_BUF_SIZE) by (rewrite A2; exact Hl).
    pose proof (wait_loop_defined ds (armed s) Hl') as Wd.
    destruct (wait_loop_spec ds (armed s) A0) as (_ & _ & W3).
    destruct (snd (wait_loop ds (armed s))) as [s3 ds'|r s3 ds'|s3|];
      cbn [wait_post] in W3; try discriminate; [|contradiction].
    destruct (nbytes_received s3 =? LIBUSB_ERROR_TIMEOUT); [|discriminate].
    cbn [snd]. apply IH.
    destruct W3 as (_ & _ & (_ & _ & _ & _ & T3) & _). rewrite T3. exact Hl'.
Qed.

(** X3.  [receive_buf] holds 42 bytes and [read_callback] copies into it as
    many bytes as were received.  When [rlength], as the [int] handed to
    libusb, is at most 42, no call of [write_read] or [hid_send_recv] copies
    past the end of [receive_buf], whatever the transport does.  When
    [rlength] is larger, a completed transfer of [rlength] bytes makes
    [read_callback] copy past the end. *)
Theorem receive_buf_overrun :
  (forall ss ds data nbytes rdata rlength s,
      to_int rlength <= RECEIVE_BUF_SIZE ->
      snd (write_read ss ds data nbytes rdata rlength s) <> WrUndefined /\
      snd (hid_send_recv ss ds data nbytes rdata rlength s) <> HidUndefined) /\
  (forall ss ds data nbytes rdata rlength s r0,
      RECEIVE_BUF_SIZE < rlength < 2 ^ 31 -> 0 <= r0 ->
      snd (hid_send_recv (r0 :: ss)
             (completes (repeat x00 (Z.to_nat rlength)) :: ds)
             data nbytes rdata rlength s) = HidUndefined).
Proof.
  split.
  - intros ss ds data nbytes rdata rlength s Hl.
    assert (W : snd (write_read ss ds data nbytes rdata rlength s) <> WrUndefined).
    { rewrite write_read_unfold. cbn [snd]. apply again_defined.
      destruct (entered_facts rdata rlength s) as (_ & _ & -> & _). exact Hl. }
    split; [exact W|]. rewrite hid_send_recv_snd.
    destruct (snd (write_read ss ds data nbytes rdata rlength s))
      as [ret s' ss' ds'|s'|]; [|discriminate|contradiction].
    destruct (ret <? 0); [discriminate|].
    destruct (negb (to_unsigned ret =? rlength)); discriminate.
  - intros ss ds data nbytes rdata rlength s r0 Hl Hr.
    rewrite hid_send_recv_snd, write_read_unfold. cbn [snd].
    set (s0 := entered rdata rlength s).
    rewrite again_cons. cbv zeta.
    apply Z.ltb_ge in Hr. rewrite Hr.
    destruct (armed_facts s0) as (A0 & A1 & (_ & _ & _ & _ & A2)).
    rewrite wait_loop_cons by exact A0. cbv zeta.
    assert (Hlen : t_length (armed s0) = rlength).
    { rewrite A2. unfold s0.
      destruct (entered_facts rdata rlength s) as (_ & _ & -> & _).
      apply to_int_small. unfold RECEIVE_BUF_SIZE in Hl. lia. }
    assert (Hd : delivered (completes (repeat x00 (Z.to_nat rlength))) (armed s0) =
                 Some (LIBUSB_TRANSFER_COMPLETED, repeat x00 (Z.to_nat rlength))).
    { unfold delivered, received. simpl. rewrite A1, Hlen.
      rewrite firstn_all2 by (rewrite repeat_length; lia). reflexivity. }
    assert (Hn : libusb_handle_events (completes (repeat x00 (Z.to_nat rlength)))
                   (armed s0) = None).
    { unfold libusb_handle_events. rewrite Hd. simpl.
      rewrite repeat_length, Z2Nat.id by (unfold RECEIVE_BUF_SIZE in Hl; lia).
      destruct (rlength <=? RECEIVE_BUF_SIZE) eqn:E;
        [apply Z.leb_le in E; lia|].
      rewrite ?andb_false_r. reflexivity. }
    rewrite Hn. reflexivity.
Qed.

Lemma receive_buf_overrun_witness :
  snd (hid_send_recv [2]
         [completes (repeat x00 (Z.to_nat 43))]
         request12 2 (repeat x00 64) 43 initial_state) = HidUndefined /\
  snd (hid_send_recv [2] [completes (repeat x00 43)] request12 2
         (repeat x00 64) 42 initial_state) <> HidUndefined.
Proof.
  destruct receive_buf_overrun as (H1 & H2). split.
  - apply (H2 [] [] request12 2 (repeat x00 64) 43 initial_state 2).
    + unfold RECEIVE_BUF_SIZE. lia.
    + lia.
  - apply (H1 [2] [completes (repeat x00 43)] request12 2 (repeat x00 64) 42
              initial_state).
    unfold RECEIVE_BUF_SIZE. vm_compute. discriminate.
Defined.

(** ** The request sent *)

Lemma again_sends (data : list byte) (ss : list Z) :
  forall ds s, Forall (sends_only data) (fst (again ss ds data s)).
Proof.
  induction ss as [|result ss IH]; intros ds s.
  - rewrite again_nil. repeat constructor.
  - rewrite again_cons. cbv zeta.
    destruct (armed_facts s) as (A0 & _).
    destruct (result <? 0); [repeat constructor|].
    assert (W : Forall (sends_only data) (fst (wait_loop ds (armed s)))).
    { destruct (wait_loop_spec ds (armed s) A0) as (_ & W & _).
      rewrite forallb_forall in W. apply Forall_forall. intros e He.
      specialize (W e He). destruct e; try discriminate. exact I. }
    destruct (snd (wait_loop ds (armed s))) as [s3 ds'|r s3 ds'|s3|]; cbn [fst];
      try (constructor; [exact I|constructor; [reflexivity|exact W]]).
    destruct (nbytes_received s3 =? LIBUSB_ERROR_TIMEOUT); cbn [fst];
      [|constructor; [exact I|constructor; [reflexivity|exact W]]].
    constructor; [exact I|]. constructor; [reflexivity|].
    apply Forall_app. split; [exact W|apply IH].
Qed.

(** X4.  All the sends of one call of [hid_send_recv], the retries after a
    timeout included, transmit the same bytes.  They are at most 65535
    bytes (the length goes through the 16-bit [wLength] of
    [libusb_control_transfer]), and they are the first [nbytes] bytes of
    the request when [nbytes] is below 65536 and within the request. *)
Theorem retries_resend_request ss ds data nbytes rdata rlength s :
  Forall (sends_only (sent_bytes data nbytes))
         (fst (hid_send_recv ss ds data nbytes rdata rlength s)) /\
  Z.of_nat (length (sent_bytes data nbytes)) <= 65535 /\
  (0 <= nbytes < 2 ^ 16 -> (Z.to_nat nbytes <= length data)%nat ->
   sent_bytes data nbytes = firstn (Z.to_nat nbytes) data /\
   length (sent_bytes data nbytes) = Z.to_nat nbytes).
Proof.
  split; [|split].
  - rewrite hid_send_recv_fst, write_read_unfold. cbn [fst].
    apply Forall_app. split; [|apply again_sends].
    unfold entry_events. destruct (transfer s); repeat constructor.
  - unfold sent_bytes. rewrite length_firstn.
    change (2 ^ 16) with 65536.
    pose proof (Z.mod_pos_bound nbytes 65536 ltac:(lia)). lia.
  - intros Hn Hd. unfold sent_bytes. rewrite Z.mod_small by exact Hn.
    split; [reflexivity|]. rewrite length_firstn. lia.
Qed.

Lemma retries_resend_request_witness :
  sent_bytes request12 2 = firstn (Z.to_nat 2) request12 /\
  length (sent_bytes request12 2) = Z.to_nat 2.
Proof.
  apply (proj2 (proj2 (retries_resend_request [2; 2]
           [ends_with LIBUSB_TRANSFER_TIMED_OUT; completes reply8]
           request12 2 empty8 8 initial_state))).
  - lia.
  - simpl. lia.
Defined.

(** ** A device that stays silent *)

Lemma delivered_none (d : dispatch) (s : state) :
  d_completion d = None -> delivered d s = None.
Proof. unfold delivered. intros ->. reflexivity. Qed.

Lemma wait_loop_quiet (ds : list dispatch) :
  forall s, nbytes_received s = 0 -> Forall quiet ds ->
    wait_loop ds s =
    (map (fun d => EvDispatch None (d_result d)) ds, WaitPending s).
Proof.
  induction ds as [|d ds IH]; intros s H0 Hq.
  - simpl. rewrite H0. reflexivity.
  - inversion Hq as [|? ? (Hc & Hf) Hq']. subst.
    rewrite (wait_loop_cons _ _ _ H0). cbv zeta.
    rewrite (delivered_none d s Hc), (handle_events_idle _ _ (delivered_none d s Hc)), Hf.
    rewrite (IH s H0 Hq'). reflexivity.
Qed.

Lemma count_map_dispatch (ds : list dispatch) :
  count is_dispatch (map (fun d => EvDispatch None (d_result d)) ds) = length ds /\
  count is_submit (map (fun d => EvDispatch None (d_result d)) ds) = 0%nat /\
  count is_control (map (fun d => EvDispatch None (d_result d)) ds) = 0%nat.
Proof.
  induction ds as [|d ds (I1 & I2 & I3)]; [auto|].
  cbn [map]. rewrite !count_cons, I1, I2, I3. auto.
Qed.

(** X5.  [write_read] has no time limit of its own.  After a successful
    send, as long as the calls of [libusb_handle_events] neither run the
    callback nor return a fatal code, it neither returns nor retries: it
    makes one submission and one send, and then one dispatch per entry of
    the script, and is still dispatching when the script ends. *)
Theorem write_read_waits_for_callback
    ss ds data length reply rlength s r0 :
  0 <= r0 -> Forall quiet ds ->
  (exists s', snd (write_read (r0 :: ss) ds data length reply rlength s) =
              WrPending s') /\
  count is_dispatch (fst (write_read (r0 :: ss) ds data length reply rlength s)) =
    List.length ds /\
  count is_submit (fst (write_read (r0 :: ss) ds data length reply rlength s)) =
    1%nat /\
  count is_control (fst (write_read (r0 :: ss) ds data length reply rlength s)) =
    1%nat.
Proof.
  intros Hr Hq. rewrite write_read_unfold. cbn [fst snd].
  set (s0 := entered reply rlength s).
  rewrite again_cons. cbv zeta. apply Z.ltb_ge in Hr. rewrite Hr.
  destruct (armed_facts s0) as (A0 & _).
  rewrite (wait_loop_quiet ds (armed s0) A0 Hq). cbn [fst snd].
  destruct (count_map_dispatch ds) as (C1 & C2 & C3).
  split; [eauto|].
  rewrite !count_app, !count_cons, C1, C2, C3.
  unfold entry_events, submit_event. destruct (transfer s); cbn; auto.
Qed.

Lemma write_read_waits_for_callback_witness :
  exists s',
    snd (write_read [2] [returns 0; returns LIBUSB_ERROR_TIMEOUT;
                         returns LIBUSB_ERROR_INTERRUPTED]
           request12 2 empty8 8 initial_state) = WrPending s'.
Proof.
  apply (write_read_waits_for_callback [] _ request12 2 empty8 8 initial_state 2).
  - lia.
  - repeat constructor.
Defined.

(** ** The caller's reply array *)

Lemma memcpy_tail (dst bytes : list byte) (L : nat) :
  (length bytes <= L)%nat -> (L <= length dst)%nat ->
  length (memcpy dst bytes (length bytes)) = length dst /\
  skipn L (memcpy dst bytes (length bytes)) = skipn L dst.
Proof.
  intros H1 H2. unfold memcpy. rewrite firstn_all. split.
  - rewrite length_app, length_skipn. lia.
  - rewrite skipn_app, skipn_all2 by exact H1. simpl.
    rewrite skipn_skipn. f_equal. lia.
Qed.

Lemma tail_kept_refl (s : state) : tail_kept s s.
Proof. repeat split. Qed.

Lemma tail_kept_trans (s1 s2 s3 : state) :
  tail_kept s1 s2 -> tail_kept s2 s3 -> tail_kept s1 s3.
Proof.
  unfold tail_kept. intros (a & b & c) (a' & b' & c'). rewrite a in c'.
  repeat split; congruence.
Qed.

Lemma tail_kept_fits (s s' : state) :
  tail_kept s s' ->
  (Z.to_nat (t_length s) <= length (t_buffer s))%nat ->
  (Z.to_nat (t_length s') <= length (t_buffer s'))%nat.
Proof. intros (a & b & _). rewrite a, b. auto. Qed.

Lemma handle_events_tail (d : dispatch) (s s1 : state) :
  libusb_handle_events d s = Some s1 ->
  (Z.to_nat (t_length s) <= length (t_buffer s))%nat ->
  tail_kept s s1.
Proof.
  intros E Hfit. unfold libusb_handle_events in E.
  destruct (delivered d s) as [[st bytes]|] eqn:Hd.
  - destruct (delivered_completed _ _ _ _ Hd) as (_ & c & _ & _ & Hb).
    pose proof (received_length c s) as Hl. rewrite <- Hb in Hl.
    destruct (read_callback_buffer _ _ _ _ _ E) as (B & L).
    destruct (memcpy_tail (t_buffer s) bytes _ Hl Hfit) as (M1 & M2).
    unfold tail_kept. rewrite B, L. simpl. auto.
  - injection E as <-. apply tail_kept_refl.
Qed.

Lemma wait_loop_tail (ds : list dispatch) :
  forall s, (Z.to_nat (t_length s) <= length (t_buffer s))%nat ->
    match snd (wait_loop ds s) with
    | WaitDone s' _ | WaitFatal _ s' _ | WaitPending s' => tail_kept s s'
    | WaitUndefined => True
    end.
Proof.
  induction ds as [|d ds IH]; intros s Hfit.
  - simpl. destruct (nbytes_received s =? 0); apply tail_kept_refl.
  - rewrite wait_loop_step.
    destruct (nbytes_received s =? 0); [|apply tail_kept_refl].
    destruct (libusb_handle_events d s) as [s1|] eqn:E; [|exact I].
    pose proof (handle_events_tail _ _ _ E Hfit) as T.
    destruct (fatal_dispatch (d_result d)); [exact T|]. cbn [snd].
    specialize (IH s1 (tail_kept_fits _ _ T Hfit)).
    destruct (snd (wait_loop ds s1)); try exact I;
      eapply tail_kept_trans; eauto.
Qed.

Lemma armed_tail (s : state) : tail_kept s (armed s).
Proof.
  unfold armed, libusb_submit_transfer. simpl.
  destruct (t_submitted s); repeat split.
Qed.

Lemma again_tail (data : list byte) (ss : list Z) :
  forall ds s, (Z.to_nat (t_length s) <= length (t_buffer s))%nat ->
    match snd (again ss ds data s) with
    | WrReturn _ s' _ _ | WrPending s' => tail_kept s s'
    | WrUndefined => True
    end.
Proof.
  induction ss as [|result ss IH]; intros ds s Hfit.
  - rewrite again_nil. apply armed_tail.
  - rewrite again_cons. cbv zeta.
    pose proof (armed_tail s) as A.
    destruct (result <? 0); [exact A|].
    pose proof (wait_loop_tail ds (armed s) (tail_kept_fits _ _ A Hfit)) as W.
    destruct (snd (wait_loop ds (armed s))) as [s3 ds'|r s3 ds'|s3|];
      try exact I; try (eapply tail_kept_trans; eauto; fail).
    pose proof (tail_kept_trans _ _ _ A W) as T.
    destruct (nbytes_received s3 =? LIBUSB_ERROR_TIMEOUT); [|exact T].
    cbn [snd]. specialize (IH ds' s3 (tail_kept_fits _ _ T Hfit)).
    destruct (snd (again ss ds' data s3)); try exact I;
      eapply tail_kept_trans; eauto.
Qed.

(** X6.  The transport is given [rlength] as the length of the receive, so
    when the caller's reply array has at least [rlength] bytes, whatever is
    received in whatever number of attempts, [hid_send_recv] leaves the
    array with its size and with its bytes from index [rlength] on
    unchanged. *)
Theorem reply_array_bounds ss ds data nbytes rdata rlength s s' :
  0 <= rlength < 2 ^ 31 ->
  (Z.to_nat rlength <= length rdata)%nat ->
  hid_final (snd (hid_send_recv ss ds data nbytes rdata rlength s)) = Some s' ->
  length (t_buffer s') = length rdata /\
  skipn (Z.to_nat rlength) (t_buffer s') = skipn (Z.to_nat rlength) rdata.
Proof.
  intros Hr Hfit. rewrite hid_send_recv_snd, write_read_unfold. cbn [snd].
  destruct (entered_facts rdata rlength s) as (_ & Eb & El & _).
  rewrite (to_int_small _ Hr) in El.
  assert (Hfit0 : (Z.to_nat (t_length (entered rdata rlength s)) <=
                   length (t_buffer (entered rdata rlength s)))%nat)
    by (rewrite El, Eb; exact Hfit).
  pose proof (again_tail (sent_bytes data nbytes) ss ds _ Hfit0) as T.
  assert (K : forall s1, tail_kept (entered rdata rlength s) s1 ->
            length (t_buffer s1) = length rdata /\
            skipn (Z.to_nat rlength) (t_buffer s1) = skipn (Z.to_nat rlength) rdata).
  { intros s1 (_ & b & c). rewrite El, Eb in *. auto. }
  destruct (snd (again ss ds (sent_bytes data nbytes) (entered rdata rlength s)))
    as [ret s1 ss1 ds1|s1|]; cbn [hid_final]; [| |discriminate].
  - destruct (ret <? 0); [|destruct (negb (to_unsigned ret =? rlength))];
      cbn [hid_final]; intros [= <-]; apply K; exact T.
  - intros [= <-]. apply K; exact T.
Qed.

Lemma reply_array_bounds_witness :
  length (reply8 ++ [xaa; xbb]) = length (empty8 ++ [xaa; xbb]) /\
  skipn (Z.to_nat 8) (reply8 ++ [xaa; xbb]) =
  skipn (Z.to_nat 8) (empty8 ++ [xaa; xbb]).
Proof.
  apply (reply_array_bounds [2] [completes (reply8 ++ reply8)] request12 2
           (empty8 ++ [xaa; xbb]) 8 initial_state
           (mkState false false (Some 0%nat) (reply8 ++ repeat x00 34) 8
              129 (reply8 ++ [xaa; xbb]) 8 500 false 1)).
  - lia.
  - simpl. lia.
  - reflexivity.
Defined.

(** ** A reply after any number of timeouts *)

Lemma again_retries (data bytes : list byte) (k : nat) :
  bytes <> [] -> Z.of_nat (length bytes) <= RECEIVE_BUF_SIZE ->
  forall ss s,
    length ss = S k -> Forall (fun r => 0 <= r) ss ->
    t_length s = Z.of_nat (length bytes) ->
    (exists s',
        snd (again ss (repeat (ends_with LIBUSB_TRANSFER_TIMED_OUT) k ++
                       [completes bytes]) data s) =
          WrReturn (Z.of_nat (length bytes)) s' [] [] /\
        firstn (length bytes) (t_buffer s') = bytes) /\
    count is_retry
      (fst (again ss (repeat (ends_with LIBUSB_TRANSFER_TIMED_OUT) k ++
                      [completes bytes]) data s)) = k.
Proof.
  intros Hne Hfit.
  assert (Hpos : 0 < Z.of_nat (length bytes)).
  { destruct bytes; [contradiction|]. simpl length. lia. }
  induction k as [|k IH]; intros ss s Hlen Hss Hl;
    destruct ss as [|r0 ss]; try discriminate;
    inversion Hss as [|? ? Hr0 Hss']; subst;
    destruct (armed_facts s) as (A0 & A1 & (_ & _ & _ & _ & A2)).
  - destruct ss; [|discriminate]. cbn [repeat app].
    assert (Hd : delivered (completes bytes) (armed s) =
                 Some (LIBUSB_TRANSFER_COMPLETED, bytes)).
    { unfold delivered, received. simpl. rewrite A1, A2, Hl, Nat2Z.id.
      rewrite firstn_all. reflexivity. }
    destruct (libusb_handle_events (completes bytes) (armed s)) as [s1|] eqn:E.
    + destruct (handle_events_delivered _ _ _ _ _ Hd E) as (a & _ & _ & (c & _)).
      simpl in a.
      rewrite (again_outcome r0 [] _ [] data s s1 Hr0 E eq_refl) by lia.
      cbv zeta. rewrite a, Hd.
      assert (Hnt : (Z.of_nat (length bytes) =? LIBUSB_ERROR_TIMEOUT) = false)
        by (apply Z.eqb_neq; unfold LIBUSB_ERROR_TIMEOUT; lia).
      rewrite Hnt. cbn [fst snd]. split; [eauto|].
      rewrite !count_cons. cbn [is_retry outcome_of]. rewrite Hnt, andb_false_r.
      reflexivity.
    + destruct (handle_events_undefined _ _ E) as (b & E1 & E2).
      rewrite Hd in E1. injection E1 as <-. lia.
  - cbn [repeat app].
    destruct (handle_events_status LIBUSB_TRANSFER_TIMED_OUT [] 0 (armed s))
      as (s1 & E & a & b & (_ & _ & _ & _ & c)); [discriminate|exact A1|].
    change (mkDispatch (Some (mkCompletion LIBUSB_TRANSFER_TIMED_OUT [])) 0)
      with (ends_with LIBUSB_TRANSFER_TIMED_OUT) in E.
    simpl in a.
    rewrite (again_outcome r0 _ _ _ data s s1 Hr0 E eq_refl)
      by (rewrite a; discriminate).
    cbv zeta. rewrite a, Z.eqb_refl. cbn [fst snd].
    assert (Hl1 : t_length s1 = Z.of_nat (length bytes)) by congruence.
    assert (Hlen' : length ss = S k) by (simpl in Hlen; lia).
    destruct (IH ss s1 Hlen' Hss' Hl1) as (I1 & I2).
    split; [exact I1|].
    rewrite count_app, I2. unfold delivered. simpl. rewrite A1. reflexivity.
Qed.

(** X7.  A device that answers late is waited for: when every send
    succeeds and the receive times out [k] times before it completes with
    [bytes] (between 1 and 42 of them, as many as expected),
    [hid_send_recv] returns after exactly [k + 1] submissions and [k + 1]
    sends, with [bytes] at the start of the caller's array. *)
Theorem reply_after_timeouts
    (k : nat) ss data nbytes rdata (bytes : list byte) s :
  bytes <> [] -> Z.of_nat (length bytes) <= RECEIVE_BUF_SIZE ->
  length ss = S k -> Forall (fun r => 0 <= r) ss ->
  let run := hid_send_recv ss
               (repeat (ends_with LIBUSB_TRANSFER_TIMED_OUT) k ++ [completes bytes])
               data nbytes rdata (Z.of_nat (length bytes)) s in
  (exists s', snd run = HidReturn s' [] [] /\
              firstn (length bytes) (t_buffer s') = bytes) /\
  count is_submit (fst run) = S k /\
  count is_control (fst run) = S k.
Proof.
  intros Hne Hfit Hlen Hss run. unfold run.
  set (ds := repeat (ends_with LIBUSB_TRANSFER_TIMED_OUT) k ++ [completes bytes]).
  set (L := Z.of_nat (length bytes)) in *.
  assert (Hpos : 0 < L).
  { unfold L. destruct bytes; [contradiction|]. simpl length. lia. }
  destruct (entered_facts rdata L s) as (_ & _ & El & _).
  rewrite to_int_small in El by (unfold RECEIVE_BUF_SIZE in Hfit; lia).
  destruct (again_retries (sent_bytes data nbytes) bytes k Hne Hfit ss
              (entered rdata L s) Hlen Hss El) as ((s' & R & B) & C).
  fold ds in R, C. fold L in R.
  assert (Hw : snd (write_read ss ds data nbytes rdata L s) = WrReturn L s' [] []).
  { rewrite write_read_unfold. exact R. }
  assert (Hc : count is_retry (fst (write_read ss ds data nbytes rdata L s)) = k).
  { rewrite write_read_unfold. cbn [fst]. rewrite count_app, C.
    unfold entry_events. destruct (transfer s); reflexivity. }
  rewrite hid_send_recv_fst, hid_send_recv_snd, Hw.
  assert ((L <? 0) = false) as -> by (apply Z.ltb_ge; lia).
  rewrite to_unsigned_small by lia. rewrite Z.eqb_refl. cbn [negb].
  split; [eauto|].
  destruct (write_read_phases ss ds data nbytes rdata L s) as (q & P & Q).
  rewrite Hw in Q. subst q.
  destruct (phases_counts _ _ P) as (C1 & C2).
  cbn [due_submit due_control] in C1, C2. rewrite Hc in C1, C2. lia.
Qed.

Lemma reply_after_timeouts_witness :
  count is_submit
    (fst (hid_send_recv [2; 0; 7]
            (repeat (ends_with LIBUSB_TRANSFER_TIMED_OUT) 2 ++ [completes reply8])
            request12 2 empty8 (Z.of_nat (length reply8)) initial_state)) = 3%nat.
Proof.
  refine (proj1 (proj2 (reply_after_timeouts 2 [2; 0; 7] request12 2 empty8
                          reply8 initial_state _ _ eq_refl _))).
  - discriminate.
  - unfold RECEIVE_BUF_SIZE. simpl. lia.
  - repeat constructor; lia.
Defined.

(** ** No use of the descriptor outside its life *)

Lemma lifecycle_app (l1 l2 : list event) :
  forall live, lifecycle live (l1 ++ l2) =
               match lifecycle live l1 with
               | Some live' => lifecycle live' l2
               | None => None
               end.
Proof.
  induction l1 as [|e l1 IH]; intros live; [reflexivity|].
  destruct e as [n|[n|] ? ? ?|[n|] ?| |[n|]| |n]; simpl; try apply IH;
    destruct live as [m|]; try reflexivity; try apply IH;
    destruct (Nat.eqb m n); try reflexivity; apply IH.
Qed.

(** A trace on one live descriptor, without allocation or free, keeps it
    live. *)
Lemma lifecycle_names (n : nat) (evs : list event) :
  Forall (names (Some n)) evs ->
  forallb (fun e => negb (is_alloc e) && negb (is_free e)) evs = true ->
  lifecycle (Some n) evs = Some (Some n).
Proof.
  induction evs as [|e evs IH]; intros N F; [reflexivity|].
  inversion N as [|? ? Ne N']. subst. cbn [forallb] in F.
  apply andb_true_iff in F. destruct F as (Fe & F').
  destruct e; try discriminate; simpl in Ne |- *; subst;
    rewrite ?Nat.eqb_refl; auto.
Qed.

Lemma count_zero (f : event -> bool) (evs : list event) :
  count f evs = 0%nat -> forallb (fun e => negb (f e)) evs = true.
Proof.
  induction evs as [|e evs IH]; [reflexivity|].
  rewrite count_cons. cbn [forallb]. destruct (f e); [discriminate|].
  intros H. apply IH. exact H.
Qed.

Lemma again_no_alloc_free (data : list byte) (ss : list Z) (ds : list dispatch)
    (s : state) :
  forallb (fun e => negb (is_alloc e) && negb (is_free e))
          (fst (again ss ds data s)) = true.
Proof.
  pose proof (again_spec data ss ds s) as H.
  assert (P : exists q, phases Idle (fst (again ss ds data s)) = Some q).
  { destruct (snd (again ss ds data s)); cbn [run_post] in H.
    - exists Closed. apply H.
    - destruct H as ([H|H] & _); eauto.
    - exists Closed. apply H. }
  destruct P as (q & P).
  destruct (phases_alloc_free _ _ _ P) as (F & A & _).
  specialize (A ltac:(discriminate)).
  apply count_zero in F, A. rewrite forallb_forall in *.
  intros e He. rewrite (F e He), (A e He). reflexivity.
Qed.

(** The trace of one call of [hid_send_recv] respects the life of the
    descriptor and leaves the descriptor of the call live. *)
Lemma hid_send_recv_lifecycle ss ds data nbytes rdata rlength s :
  lifecycle (transfer s) (fst (hid_send_recv ss ds data nbytes rdata rlength s)) =
  Some (descriptor s).
Proof.
  rewrite hid_send_recv_fst, write_read_unfold. cbn [fst].
  rewrite lifecycle_app.
  pose proof (again_names (sent_bytes data nbytes) ss ds (entered rdata rlength s)) as N.
  pose proof (again_no_alloc_free (sent_bytes data nbytes) ss ds
                (entered rdata rlength s)) as F.
  destruct (entered_facts rdata rlength s) as (Et & _). rewrite Et in N.
  unfold entry_events, descriptor in *.
  destruct (transfer s) as [id|]; simpl; rewrite Nat.eqb_refl;
    apply lifecycle_names; assumption.
Qed.

(** X8.  Over any sequence of calls of [hid_init], [hid_send_recv] and
    [hid_close], from any state, the libusb calls respect the life of the
    transfer descriptor: a descriptor is allocated only when none is live,
    every fill, submission and cancellation is on the live descriptor (none
    on a freed one, none before the allocation), and a free is of the live
    descriptor (none is freed twice).  While the process runs, [transfer]
    is NULL exactly when no descriptor is live. *)
Theorem descriptor_never_used_outside_its_life (calls : list call) :
  forall s,
    exists live,
      lifecycle (transfer s) (fst (run calls s)) = Some live /\
      forall s', snd (run calls s) = Running s' -> transfer s' = live.
Proof.
  induction calls as [|c calls IH]; intros s.
  - exists (transfer s). simpl. split; [reflexivity|]. intros s' [= <-]. reflexivity.
  - destruct c as [vid pid a|ss ds data nbytes rdata rlength|]; cbn [run].
    + destruct (hid_init_transfer vid pid a s) as (T & _).
      destruct (hid_init vid pid a s) as [ret s1|site s1].
      * rewrite <- T. apply IH.
      * exists (transfer s). simpl. split; [reflexivity|]. discriminate.
    + pose proof (hid_send_recv_lifecycle ss ds data nbytes rdata rlength s) as L.
      destruct (write_read_descriptor ss ds data nbytes rdata rlength s)
        as (_ & _ & _ & _ & R).
      pose proof (hid_send_recv_snd ss ds data nbytes rdata rlength s) as Hsnd.
      destruct (hid_send_recv ss ds data nbytes rdata rlength s) as [evs r].
      cbn [fst snd] in *.
      destruct r as [s1 ss1 ds1|site s1|s1|];
        try (exists (descriptor s); cbn [fst snd]; split; [exact L|discriminate]).
      destruct (snd (write_read ss ds data nbytes rdata rlength s))
        as [ret s2 ss2 ds2|s2|]; try discriminate.
      destruct (R ret s2 ss2 ds2 eq_refl) as (T & _).
      destruct (ret <? 0); [discriminate|].
      destruct (negb (to_unsigned ret =? rlength)); [discriminate|].
      injection Hsnd as -> -> ->.
      destruct (IH s2) as (live & I1 & I2).
      destruct (run calls s2) as [evs' p]. cbn [fst snd] in *.
      exists live. rewrite lifecycle_app, L, <- T. auto.
    + pose proof (hid_close_events s) as He.
      assert (Ht : transfer (snd (hid_close s)) =
                   if ctx s then None else transfer s).
      { unfold hid_close. destruct (ctx s); simpl; [|reflexivity].
        destruct (transfer s) eqn:Et; simpl; [reflexivity|exact Et]. }
      destruct (hid_close s) as [evs s1]. cbn [fst snd] in *.
      destruct (IH s1) as (live & I1 & I2).
      destruct (run calls s1) as [evs' p]. cbn [fst snd] in *.
      exists live. rewrite lifecycle_app, He. split; [|exact I2].
      rewrite Ht in I1.
      destruct (ctx s); [destruct (transfer s) as [id|]|]; simpl;
        rewrite ?Nat.eqb_refl; exact I1.
Qed.

Lemma descriptor_never_used_outside_its_life_witness :
  lifecycle None
    (fst (run [Call_hid_init 1240 60 (mkInitAnswers 0 true false 0);
               Call_hid_send_recv [2] [completes reply8] request12 2 empty8 8;
               Call_hid_close;
               Call_hid_init 1240 60 (mkInitAnswers 0 true true 0);
               Call_hid_send_recv [2] [completes reply8] request12 2 empty8 8]
              initial_state)) = Some (Some 1%nat).
Proof.
  destruct (descriptor_never_used_outside_its_life
              [Call_hid_init 1240 60 (mkInitAnswers 0 true false 0);
               Call_hid_send_recv [2] [completes reply8] request12 2 empty8 8;
               Call_hid_close;
               Call_hid_init 1240 60 (mkInitAnswers 0 true true 0);
               Call_hid_send_recv [2] [completes reply8] request12 2 empty8 8]
              initial_state) as (live & L & T).
  change (transfer initial_state) with (@None nat) in L.
  rewrite L. f_equal. symmetry.
  exact (T (mkState true true (Some 1%nat) (reply8 ++ repeat x00 34) 8
              129 reply8 8 500 false 2) eq_refl).
Defined.

(** ** hid_close without a context *)

(** X9.  [hid_close] acts only while [ctx] is set, and resets it: a second
    [hid_close] makes no libusb call and changes nothing (no double free).
    [hid_init] returns [0] with [ctx] and [dev] set, or [-1] with [ctx]
    reset when the device is not found; after that [-1], [hid_close] frees
    nothing, so a descriptor allocated before stays allocated. *)
Theorem hid_close_needs_context :
  (forall s, hid_close (snd (hid_close s)) = ([], snd (hid_close s))) /\
  (forall vid pid a s ret s1,
      hid_init vid pid a s = InitReturn ret s1 ->
      (ret = 0 /\ ctx s1 = true /\ dev s1 = true /\ device_found a = true) \/
      (ret = -1 /\ ctx s1 = false /\ dev s1 = false /\ device_found a = false)) /\
  (forall vid pid a s s1,
      hid_init vid pid a s = InitReturn (-1) s1 ->
      hid_close s1 = ([], s1) /\ transfer s1 = transfer s).
Proof.
  assert (Hinit : forall vid pid a s ret s1,
      hid_init vid pid a s = InitReturn ret s1 ->
      transfer s1 = transfer s /\
      ((ret = 0 /\ ctx s1 = true /\ dev s1 = true /\ device_found a = true) \/
       (ret = -1 /\ ctx s1 = false /\ dev s1 = false /\ device_found a = false))).
  { intros vid pid a s ret s1. unfold hid_init.
    destruct (init_error a <? 0); [discriminate|].
    destruct (device_found a); simpl.
    - destruct (claim_error a <? 0); [discriminate|].
      intros [= <- <-]. split; [reflexivity|]. left. auto.
    - intros [= <- <-]. split; [reflexivity|]. right. auto. }
  split; [|split].
  - intros s. unfold hid_close at 2 3. destruct (ctx s) eqn:Ec; simpl.
    + destruct (transfer s); unfold hid_close; reflexivity.
    + unfold hid_close. rewrite Ec. reflexivity.
  - intros vid pid a s ret s1 H. apply (Hinit _ _ _ _ _ _ H).
  - intros vid pid a s s1 H. destruct (Hinit _ _ _ _ _ _ H) as (T & [C|C]).
    + destruct C as (C & _). discriminate.
    + destruct C as (_ & C & _). split; [|exact T].
      unfold hid_close. rewrite C. reflexivity.
Qed.

Lemma hid_close_needs_context_witness :
  hid_close (mkState false false (Some 0%nat) (repeat x00 42) 8 129 reply8 8
               500 false 1) =
  ([], mkState false false (Some 0%nat) (repeat x00 42) 8 129 reply8 8
         500 false 1).
Proof.
  exact (proj1 (proj2 (proj2 hid_close_needs_context) 1240 60
                  (mkInitAnswers 0 false false 0)
                  (mkState true true (Some 0%nat) (repeat x00 42) 8 129 reply8 8
                     500 false 1)
                  _ eq_refl)).
Defined.

(** ** The hex dumps *)

Lemma printed_app (l1 l2 : list piece) :
  printed (l1 ++ l2) = printed l1 ++ printed l2.
Proof.
  induction l1 as [|p l1 IH]; [reflexivity|].
  destruct p; simpl; rewrite IH; reflexivity.
Qed.

Lemma land_15 (k : Z) : 0 <= k -> Z.land k 15 = k mod 16.
Proof.
  intros _. change 15 with (Z.ones 4). rewrite Z.land_ones by lia. reflexivity.
Qed.

Lemma dump_round_printed (data : list byte) (k : nat) :
  printed (dump_round data k) = [nth k data x00].
Proof.
  unfold dump_round.
  destruct (negb (Z.of_nat k =? 0) && (Z.land (Z.of_nat k) 15 =? 0));
    reflexivity.
Qed.

Lemma dump_round_breaks (data : list byte) (k : nat) :
  length (filter is_break (dump_round data k)) =
  if negb (Z.of_nat k =? 0) && (Z.of_nat k mod 16 =? 0) then 1%nat else 0%nat.
Proof.
  unfold dump_round. rewrite land_15 by lia.
  destruct (negb (Z.of_nat k =? 0) && (Z.of_nat k mod 16 =? 0)); reflexivity.
Qed.

Lemma skipn_nth (data : list byte) :
  forall k, (k < length data)%nat ->
    skipn k data = nth k data x00 :: skipn (S k) data.
Proof.
  induction data as [|b data IH]; intros k Hk; [simpl in Hk; lia|].
  destruct k as [|k]; [reflexivity|]. simpl in Hk.
  cbn [skipn nth]. rewrite (IH k) by lia. reflexivity.
Qed.

Lemma printed_rounds (data : list byte) (n : nat) :
  forall k, (k + n <= length data)%nat ->
    printed (flat_map (dump_round data) (seq k n)) = firstn n (skipn k data).
Proof.
  induction n as [|n IH]; intros k Hk; [reflexivity|].
  cbn [seq flat_map]. rewrite printed_app, dump_round_printed, IH by lia.
  rewrite (skipn_nth data k) by lia. reflexivity.
Qed.

Lemma breaks_rounds (data : list byte) (n : nat) :
  (1 <= n)%nat ->
  Z.of_nat (length (filter is_break (flat_map (dump_round data) (seq 0 n)))) =
  (Z.of_nat n - 1) / 16.
Proof.
  induction n as [|n IH]; [lia|]. intros _.
  rewrite seq_S, flat_map_app, filter_app, length_app. cbn [flat_map plus].
  rewrite app_nil_r, dump_round_breaks.
  destruct n as [|n].
  - reflexivity.
  - rewrite Nat2Z.inj_add, IH by lia.
    assert (E : (Z.of_nat (S n) =? 0) = false) by (apply Z.eqb_neq; lia).
    rewrite E. cbn [negb andb].
    destruct (Z.of_nat (S n) mod 16 =? 0) eqn:M.
    + apply Z.eqb_eq in M. change (Z.of_nat 1) with 1.
      replace (Z.of_nat (S (S n)) - 1) with (Z.of_nat (S n)) by lia.
      Z.div_mod_to_equations. lia.
    + apply Z.eqb_neq in M. change (Z.of_nat 0) with 0.
      replace (Z.of_nat (S (S n)) - 1) with (Z.of_nat (S n)) by lia.
      Z.div_mod_to_equations. lia.
Qed.

Lemma hid_dump_printed (send : bool) (data : list byte) (nbytes : Z) :
  (Z.to_nat nbytes <= length data)%nat ->
  printed (hid_dump send data nbytes) = firstn (Z.to_nat nbytes) data.
Proof.
  intros Hn. unfold hid_dump. cbn [printed].
  rewrite printed_app, printed_rounds by exact Hn.
  simpl. rewrite app_nil_r. reflexivity.
Qed.

(** X10.  The hex dump of [hid_send_recv] prints each of the [nbytes] bytes
    once, in order, and nothing else from the array; it starts a new line
    before the byte of index [k] exactly when [k] is a non-zero multiple of
    16 (the test [(k & 15) == 0]), so a dump of [nbytes >= 1] bytes has
    [(nbytes - 1) / 16] line breaks, and a dump of no byte has none. *)
Theorem hid_dump_layout (send : bool) (data : list byte) (nbytes : Z) :
  (Z.to_nat nbytes <= length data)%nat ->
  printed (hid_dump send data nbytes) = firstn (Z.to_nat nbytes) data /\
  (forall k, In PBreak (dump_round data k) <->
             Z.of_nat k <> 0 /\ Z.of_nat k mod 16 = 0) /\
  (1 <= nbytes ->
   Z.of_nat (length (filter is_break (hid_dump send data nbytes))) =
   (nbytes - 1) / 16) /\
  (nbytes <= 0 -> hid_dump send data nbytes = [PTag send; PNewline]).
Proof.
  intros Hn. unfold hid_dump. split; [|split; [|split]].
  - cbn [printed]. rewrite printed_app, printed_rounds by exact Hn.
    simpl. rewrite app_nil_r. reflexivity.
  - intros k. unfold dump_round. rewrite land_15 by lia.
    destruct (Z.eqb_spec (Z.of_nat k) 0) as [E0|E0];
      destruct (Z.eqb_spec (Z.of_nat k mod 16) 0) as [E1|E1];
      cbn [negb andb app]; split;
      try (intros [H|[]]; discriminate);
      try (intros (H1 & H2); contradiction).
    + intros _. auto.
    + intros _. left. reflexivity.
  - intros H1. cbn [filter is_break]. rewrite filter_app, length_app.
    cbn [filter is_break length]. rewrite Nat.add_0_r.
    rewrite breaks_rounds by lia. rewrite Z2Nat.id by lia. reflexivity.
  - intros H0. replace (Z.to_nat nbytes) with 0%nat by lia. reflexivity.
Qed.

Lemma hid_dump_layout_witness :
  printed (hid_dump true (reply8 ++ reply8 ++ reply8) 17) =
  firstn (Z.to_nat 17) (reply8 ++ reply8 ++ reply8) /\
  Z.of_nat (length (filter is_break (hid_dump true (reply8 ++ reply8 ++ reply8) 17))) =
  (17 - 1) / 16.
Proof.
  destruct (hid_dump_layout true (reply8 ++ reply8 ++ reply8) 17) as (H1 & _ & H2 & _).
  - simpl. lia.
  - split; [exact H1|]. apply H2. lia.
Defined.

(** X11.  With [debug_level] above 1, a call of [hid_send_recv] that
    returns has dumped the [nbytes] bytes of the request followed by exactly
    the bytes that the last dispatch delivered, which are the reply; a call
    that does not return has dumped the request only.  With [debug_level]
    at most 1 nothing is dumped. *)
Theorem dumps_show_request_and_reply
    debug_level ss ds data nbytes rdata rlength s :
  (Z.to_nat nbytes <= length data)%nat ->
  (1 < debug_level ->
   (forall s' ss' ds',
       snd (hid_send_recv ss ds data nbytes rdata rlength s) =
         HidReturn s' ss' ds' ->
       exists pre bytes r,
         fst (hid_send_recv ss ds data nbytes rdata rlength s) =
           pre ++ [EvDispatch (Some (LIBUSB_TRANSFER_COMPLETED, bytes)) r] /\
         printed (hid_send_recv_dumps debug_level ss ds data nbytes rdata rlength s) =
           firstn (Z.to_nat nbytes) data ++ bytes) /\
   ((forall s' ss' ds',
        snd (hid_send_recv ss ds data nbytes rdata rlength s) <>
        HidReturn s' ss' ds') ->
    printed (hid_send_recv_dumps debug_level ss ds data nbytes rdata rlength s) =
      firstn (Z.to_nat nbytes) data)) /\
  (debug_level <= 1 ->
   hid_send_recv_dumps debug_level ss ds data nbytes rdata rlength s = []).
Proof.
  intros Hn. unfold hid_send_recv_dumps. split.
  - intros Hd. apply Z.gtb_lt in Hd. rewrite Hd. split.
    + intros s' ss' ds' R.
      destruct (hid_return_inv _ _ _ _ _ _ _ _ _ _ R) as (pre & bytes & r & E & Hb & Hw).
      pose proof (write_read_spec ss ds data nbytes rdata rlength s) as P.
      rewrite Hw in P. cbn [run_post] in P.
      destruct P as (_ & _ & _ & _ & P).
      destruct (P ltac:(lia)) as (_ & pre2 & b2 & r2 & E2 & _ & _ & B & _).
      rewrite <- hid_send_recv_fst, E in E2.
      apply app_inj_tail in E2. destruct E2 as (_ & [= <- _]).
      exists pre, bytes, r. split; [exact E|].
      rewrite R, printed_app.
      rewrite (hid_dump_printed true data nbytes Hn).
      assert (Hlen : (Z.to_nat rlength <= length (t_buffer s'))%nat).
      { rewrite <- Hb, Nat2Z.id. rewrite <- B at 1. rewrite length_firstn. lia. }
      rewrite (hid_dump_printed false (t_buffer s') rlength Hlen).
      rewrite <- Hb, Nat2Z.id, B. reflexivity.
    + intros R. pose proof (hid_dump_printed true data nbytes Hn) as D.
      destruct (snd (hid_send_recv ss ds data nbytes rdata rlength s))
        as [s' ss' ds'| | |]; rewrite ?app_nil_r; try exact D.
      exfalso. apply (R s' ss' ds'). reflexivity.
  - intros Hd. assert ((debug_level >? 1) = false) as ->.
    { destruct (debug_level >? 1) eqn:E; [|reflexivity].
      apply Z.gtb_lt in E. lia. }
    destruct (snd (hid_send_recv ss ds data nbytes rdata rlength s)); reflexivity.
Qed.

Lemma dumps_show_request_and_reply_witness :
  printed (hid_send_recv_dumps 2 [2] [completes reply8] request12 2 empty8 8
             initial_state) = request12 ++ reply8.
Proof.
  destruct (dumps_show_request_and_reply 2 [2] [completes reply8] request12 2
              empty8 8 initial_state) as (H & _).
  - simpl. lia.
  - destruct H as (H & _); [lia|].
    destruct (H (mkState false false (Some 0%nat) (reply8 ++ repeat x00 34) 8
                   129 reply8 8 500 false 1) [] [] eq_refl)
      as (pre & bytes & r & E & P).
    rewrite P. f_equal.
    change (fst (hid_send_recv [2] [completes reply8] request12 2 empty8 8
                   initial_state))
      with ([EvAlloc 0; EvFill (Some 0%nat) 129 8 500; EvSubmit (Some 0%nat) 0;
             EvControl request12 true 2] ++
            [EvDispatch (Some (LIBUSB_TRANSFER_COMPLETED, reply8)) 0]) in E.
    apply app_inj_tail in E. destruct E as (_ & [= <- _]). reflexivity.
Defined.
